(** * The protobuf text emitter of [packages/protobuf/src/write.ts]

    A shallow embedding of the module that turns a [ProtoFile] syntax tree
    into the text of a [.proto] file, and the properties of that text.

    Conventions of the embedding:
    - a JS string is a [string]; a template literal is a chain of [++];
    - a JS number that the emitter prints (field index, enum value, reserved
      number, numeric option) is an integer [Z], printed in decimal the way
      [Number.prototype.toString] prints an integer below 10^21;
    - a generator ([function*]) is the list of the values it yields, in
      order: every generator of the module is consumed to its end, by
      [collect], by [yield*] or by a [for ... of];
    - the accumulator [result] of [writeProtoFile] is threaded explicitly by a
      small state monad, statement by statement. *)

From Stdlib Require Import ZArith List String Ascii Bool Lia.
From Stdlib Require Import Numbers.DecimalString.
Import ListNotations.

Local Open Scope Z_scope.
Local Open Scope list_scope.
Local Open Scope string_scope.

(** [++] is string concatenation throughout; lists are appended by [+++]. *)
Local Infix "+++" := (@app _) (right associativity, at level 60).

(** ** JavaScript primitives used by the module *)

Module JS.

(** The line terminator written [\n] in the source. *)
Definition nl : string := String "010"%char EmptyString.

(** The double-quote character of the quoted strings of the output. *)
Definition dq : string := String "034"%char EmptyString.

(** [Number.prototype.toString] on an integer-valued number. *)
Definition Number_toString (n : Z) : string :=
  NilZero.string_of_int (Z.to_int n).

(** [Boolean.prototype.toString]. *)
Definition Boolean_toString (b : bool) : string :=
  if b then "true" else "false".

(** [ToInt32]: the operands of a bitwise operator are reduced modulo 2^32
    and read as signed 32-bit integers. *)
Definition ToInt32 (x : Z) : Z :=
  let m := x mod 2 ^ 32 in
  if (m <? 2 ^ 31)%Z then m else m - 2 ^ 32.

(** The binary operator [&]. *)
Definition bitand (a b : Z) : Z := Z.land (ToInt32 a) (ToInt32 b).

(** Truthiness of a number: every number but zero. *)
Definition truthy_number (v : Z) : bool := negb (v =? 0)%Z.

(** The operator [!==] on two strings. *)
Definition strict_neq (a b : string) : bool := negb (a =? b)%string.

(** Truthiness of a string: every string but the empty one. *)
Definition truthy_string (s : string) : bool :=
  match s with
  | EmptyString => false
  | String _ _ => true
  end.

(** [String.prototype.repeat] with a non-negative integer count. *)
Fixpoint repeat (s : string) (count : nat) : string :=
  match count with
  | O => ""
  | S n => s ++ repeat s n
  end.

(** [Array.prototype.join] on an array of strings. *)
Fixpoint join (xs : list string) (sep : string) : string :=
  match xs with
  | [] => ""
  | [x] => x
  | x :: rest => x ++ sep ++ join rest sep
  end.

End JS.

(** ** The syntax tree ([ast.ts])

    The tree types are imported by [write.ts]; they are transcribed here from
    the way the emitter takes them apart. *)

(** A [ProtoType] is matched three ways by [matchType]: [scalar], [ref]
    and [map]. *)
Inductive ProtoType : Type :=
| ProtoScalar (s : string)
| ProtoRef (r : string)
| ProtoMap (k : string) (v : ProtoType).

(** A reservation is a number, a pair of numbers or a name:
    the three cases that [typeof] and [Array.isArray] tell apart. *)
Inductive ProtoReservation : Type :=
| ReservedNumber (n : Z)
| ReservedRange (lo hi : Z)
| ReservedName (s : string).

(** The value of a file-level option: a string, or a value that is printed
    by its own [toString]. *)
Inductive OptionValue : Type :=
| OptString (s : string)
| OptNumber (n : Z)
| OptBoolean (b : bool).

Record ProtoFieldDeclaration : Type := {
  field_name : string;
  field_type : ProtoType;
  field_index : Z;
  field_repeated : bool
}.

Record ProtoMethodDeclaration : Type := {
  method_name : string;
  method_input : ProtoType;
  method_returns : ProtoType;
  method_stream : Z
}.

Record ProtoEnumDeclaration : Type := {
  enum_name : string;
  enum_allowAlias : bool;
  enum_variants : list (string * Z)
}.

Record ProtoServiceDeclaration : Type := {
  service_name : string;
  service_operations : list ProtoMethodDeclaration
}.

(** The tagged union [ProtoDeclaration]; the constructor is the [kind] tag.
    [reservations] is an optional property of a message. *)
Inductive ProtoDeclaration : Type :=
| DeclMessage (decl : ProtoMessageDeclaration)
| DeclService (decl : ProtoServiceDeclaration)
| DeclField (decl : ProtoFieldDeclaration)
| DeclOneOf (decl : ProtoOneOfDeclaration)
| DeclEnum (decl : ProtoEnumDeclaration)
| DeclMethod (decl : ProtoMethodDeclaration)
with ProtoMessageDeclaration : Type :=
| Message (name : string) (declarations : list ProtoDeclaration)
          (reservations : option (list ProtoReservation))
with ProtoOneOfDeclaration : Type :=
| OneOf (name : string) (declarations : list ProtoDeclaration).

Definition message_name (decl : ProtoMessageDeclaration) : string :=
  let (name, _, _) := decl in name.
Definition message_declarations (decl : ProtoMessageDeclaration) :=
  let (_, declarations, _) := decl in declarations.
Definition message_reservations (decl : ProtoMessageDeclaration) :=
  let (_, _, reservations) := decl in reservations.
Definition oneof_name (decl : ProtoOneOfDeclaration) : string :=
  let (name, _) := decl in name.
Definition oneof_declarations (decl : ProtoOneOfDeclaration) :=
  let (_, declarations) := decl in declarations.

(** A [ProtoFile].  [package] is optional; [options] is a JS object, kept as
    the list of its entries in the order [Object.entries] enumerates them. *)
Record ProtoFile : Type := {
  package : option string;
  imports : list string;
  options : list (string * OptionValue);
  declarations : list ProtoDeclaration
}.

(** The two masks of the [StreamingMode] enum that [writeMethod] reads.  The
    enum is declared in [ast.ts]; the emitter only relies on the masks being
    numbers, so they are an interface here. *)
Class StreamingMode : Type := {
  StreamingMode_In : Z;
  StreamingMode_Out : Z
}.

(** ** Line-stream utilities *)

(** [indent(it, depth = 2)]: an omitted [depth] is [None] and takes the
    default.  [depth] is a count for [String.prototype.repeat]. *)
Definition indent (it : list string) (depth : option nat) : list string :=
  let depth := match depth with Some d => d | None => 2%nat end in
  List.map
    (fun value =>
       if JS.strict_neq value "" then JS.repeat " " depth ++ value
       else value)
    it.

(** [flatMap(it, f)]: [f] returns either one item or an iterable of items;
    the run-time test on the result is the case analysis on the sum. *)
Section FlatMap.
Context {T1 T2 : Type}.
Variable f : T1 -> T2 + list T2.

Fixpoint flatMap_of (it : list T1) : list T2 :=
  match it with
  | [] => []
  | value :: rest =>
      match f value with
      | inr result => result +++ flatMap_of rest
      | inl result => result :: flatMap_of rest
      end
  end.
End FlatMap.

Definition flatMap {T1 T2 : Type} (it : list T1) (f : T1 -> T2 + list T2)
  : list T2 :=
  flatMap_of f it.

(** [collect(it)]: the array of the items of the iterable. *)
Definition collect {T : Type} (it : list T) : list T := it.

(** [selectMap(source, select, delegates)].  The result object has one
    array per key of [delegates], empty at first; each value is pushed, mapped
    by the delegate of its selector, onto the array of that selector.  The
    keys are a type [K]: [select] is typed to return a key of [delegates]. *)
Section SelectMap.
Context {TIn TOut K : Type}.
Variable K_eqb : K -> K -> bool.

Definition push (result : K -> list TOut) (k : K) (item : TOut)
  : K -> list TOut :=
  fun k' => if K_eqb k k' then result k' +++ [item] else result k'.

Definition selectMap (source : list TIn) (select : TIn -> K)
           (delegates : K -> TIn -> TOut) : K -> list TOut :=
  fold_left
    (fun result value =>
       let k := select value in
       push result k (delegates k value))
    source
    (fun _ => []).
End SelectMap.

(** ** The renderers *)

Definition PROTO_HEADER : string :=
  "/* Generated by Microsoft TypeSpec */" ++ JS.nl ++
  JS.nl ++
  "syntax = " ++ JS.dq ++ "proto3" ++ JS.dq ++ ";" ++ JS.nl.

Fixpoint writeType (type : ProtoType) : string :=
  match type with
  | ProtoMap k v => "map<" ++ k ++ ", " ++ writeType v ++ ">"
  | ProtoRef r => r
  | ProtoScalar s => s
  end.

Definition writeField (decl : ProtoFieldDeclaration) : string :=
  let prefix := if field_repeated decl then "repeated " else "" in
  prefix ++ (writeType (field_type decl) ++ " " ++ field_name decl ++ " = "
             ++ JS.Number_toString (field_index decl) ++ ";").

(** The two selectors of [writeReservations]. *)
Inductive ReservationSelector : Type := reservedNumbers | reservedNames.

Definition ReservationSelector_eqb (a b : ReservationSelector) : bool :=
  match a, b with
  | reservedNumbers, reservedNumbers => true
  | reservedNames, reservedNames => true
  | _, _ => false
  end.

Definition writeReservations (decl : ProtoMessageDeclaration) : list string :=
  let result :=
    selectMap ReservationSelector_eqb
      (match message_reservations decl with Some r => r | None => [] end)
      (fun v =>
         match v with
         | ReservedNumber _ | ReservedRange _ _ => reservedNumbers
         | ReservedName _ => reservedNames
         end)
      (fun k v =>
         match k with
         | reservedNumbers =>
             match v with
             | ReservedRange lo hi =>
                 JS.Number_toString lo ++ " to " ++ JS.Number_toString hi
             | ReservedNumber n => JS.Number_toString n
             | ReservedName s => s
             end
         | reservedNames =>
             JS.dq ++
             match v with
             | ReservedName s => s
             | ReservedNumber n => JS.Number_toString n
             | ReservedRange lo hi =>
                 JS.Number_toString lo ++ "," ++ JS.Number_toString hi
             end ++ JS.dq
         end) in
  let reservedNumbers := result reservedNumbers in
  let reservedNames := result reservedNames in
  if (0 <? List.length reservedNumbers + List.length reservedNames)%nat then
    (if (0 <? List.length reservedNumbers)%nat
     then ["reserved " ++ JS.join reservedNumbers ", " ++ ";"] else [])
    +++ (if (0 <? List.length reservedNames)%nat
         then ["reserved " ++ JS.join reservedNames ", " ++ ";"] else [])
    +++ [""]
  else [].

(** ** The accumulator of [writeProtoFile]

    [writeProtoFile] builds its text in one mutable variable, [result].  A
    statement of its body is a function from the content of [result] before
    the statement to a value and the content after it. *)
Module Emit.

Definition M (A : Type) : Type := string -> A * string.

Definition ret {A : Type} (a : A) : M A := fun result => (a, result).

Definition bind {A B : Type} (m : M A) (k : A -> M B) : M B :=
  fun result => let (a, result') := m result in k a result'.

(** [let result = s] *)
Definition assign (s : string) : M unit := fun _ => (tt, s).

(** [result += s] *)
Definition append (s : string) : M unit :=
  fun result => (tt, result ++ s).

(** the expression [result] *)
Definition read : M string := fun result => (result, result).

(** [if (cond) stmt] *)
Definition when (cond : bool) (stmt : M unit) : M unit :=
  if cond then stmt else ret tt.

(** [for (const value of it) body] *)
Fixpoint for_of {T : Type} (it : list T) (body : T -> M unit) : M unit :=
  match it with
  | [] => ret tt
  | value :: rest => bind (body value) (fun _ => for_of rest body)
  end.

(** The value and the final accumulator of a run. *)
Definition run {A : Type} (m : M A) (result : string) : A * string :=
  m result.

End Emit.

Notation "stmt ;; rest" := (Emit.bind stmt (fun _ => rest))
  (at level 61, right associativity).

Section Renderers.

Context {SM : StreamingMode}.

Definition writeMethod (decl : ProtoMethodDeclaration) : string :=
  let streams :=
    List.map
      (fun v => if JS.truthy_number v then "stream " else "")
      [JS.bitand (method_stream decl) StreamingMode_In;
       JS.bitand (method_stream decl) StreamingMode_Out] in
  let inStream := nth 0 streams "undefined" in
  let outStream := nth 1 streams "undefined" in
  "rpc " ++ method_name decl ++ "(" ++ inStream
    ++ writeType (method_input decl) ++ ") returns (" ++ outStream
    ++ writeType (method_returns decl) ++ ");".

Definition writeService (decl : ProtoServiceDeclaration) : list string :=
  let head := "service " ++ service_name decl ++ " {" in
  let tail := "}" in
  if (0 <? List.length (service_operations decl))%nat then
    [head]
    +++ indent (flatMap (service_operations decl)
                        (fun d => inl (writeMethod d))) None
    +++ [tail]
  else [head ++ tail].

Definition writeEnum (decl : ProtoEnumDeclaration) : list string :=
  ["enum " ++ enum_name decl ++ " {"]
  +++ (if enum_allowAlias decl then
         ["  option allow_alias = true;"]
         +++ (if (0 <? List.length (enum_variants decl))%nat
              then [""] else [])
       else [])
  +++ indent (flatMap (enum_variants decl)
                      (fun '(name, idx) =>
                         inl (name ++ " = " ++ JS.Number_toString idx
                                   ++ ";"))) None
  +++ ["}"].

(** [writeDeclaration], [writeMessage] and [writeOneOf] call one another;
    a generator handed to [flatMap] is an iterable, the right summand. *)
Fixpoint writeDeclaration (decl : ProtoDeclaration) : list string :=
  match decl with
  | DeclMessage decl => writeMessage decl
  | DeclService decl => writeService decl
  | DeclField decl => [writeField decl]
  | DeclOneOf decl => writeOneOf decl
  | DeclEnum decl => writeEnum decl
  | DeclMethod decl => [writeMethod decl]
  end
with writeMessage (decl : ProtoMessageDeclaration) : list string :=
  match decl with
  | Message name declarations reservations =>
      let head := "message " ++ name ++ " {" in
      let tail := "}" in
      if (0 <? List.length declarations)%nat
         || match reservations with
            | Some r => JS.truthy_number (Z.of_nat (List.length r))
            | None => false
            end
      then
        [head]
        +++ indent (writeReservations decl) None
        +++ indent (flatMap declarations
                            (fun d => inr (writeDeclaration d))) None
        +++ [tail]
      else [head ++ tail]
  end
with writeOneOf (decl : ProtoOneOfDeclaration) : list string :=
  match decl with
  | OneOf name declarations =>
      ["oneof " ++ name ++ " {"]
      +++ indent (flatMap declarations
                          (fun d => inr (writeDeclaration d))) None
      +++ ["}"]
  end.

(** The body of [writeProtoFile], statement by statement. *)
Definition writeProtoFile_body (file : ProtoFile) : Emit.M string :=
  Emit.assign PROTO_HEADER ;;
  match package file with
  | Some p =>
      Emit.when (JS.truthy_string p)
        (Emit.append (JS.nl ++ "package " ++ p ++ ";" ++ JS.nl))
  | None => Emit.ret tt
  end ;;
  Emit.for_of (imports file)
    (fun _import =>
       Emit.append (JS.nl ++ "import " ++ JS.dq ++ _import ++ JS.dq ++ ";")) ;;
  Emit.when (0 <? List.length (imports file))%nat (Emit.append JS.nl) ;;
  let opts := options file in
  Emit.for_of opts
    (fun '(name, valueData) =>
       let value :=
         match valueData with
         | OptString s => JS.dq ++ s ++ JS.dq
         | OptNumber n => JS.Number_toString n
         | OptBoolean b => JS.Boolean_toString b
         end in
       Emit.append (JS.nl ++ "option (" ++ name ++ ") = " ++ value)) ;;
  Emit.when (0 <? List.length opts)%nat (Emit.append JS.nl) ;;
  Emit.for_of (declarations file)
    (fun decl =>
       Emit.append
         (JS.nl ++ JS.join (collect (writeDeclaration decl)) JS.nl
                ++ JS.nl)) ;;
  Emit.read.

(** [writeProtoFile(file)]: the value returned by the body.  The variable
    [result] is created by the first statement, so the run starts from an
    accumulator that holds nothing. *)
Definition writeProtoFile (file : ProtoFile) : string :=
  fst (Emit.run (writeProtoFile_body file) "").

End Renderers.

(** ** What the statements are written with *)

(** The last character of a string, when it has one. *)
Fixpoint last_char (s : string) : option ascii :=
  match s with
  | EmptyString => None
  | String c EmptyString => Some c
  | String _ rest => last_char rest
  end.

(** The first character of a string, when it has one. *)
Definition first_char (s : string) : option ascii :=
  match s with
  | EmptyString => None
  | String c _ => Some c
  end.

(** The number of space characters a line starts with. *)
Fixpoint leading_spaces (s : string) : nat :=
  match s with
  | String " " rest => S (leading_spaces rest)
  | _ => O
  end.

(** The decimal digits. *)
Definition is_digit (c : ascii) : bool :=
  match c with
  | "0" | "1" | "2" | "3" | "4" | "5" | "6" | "7" | "8" | "9" => true
  | _ => false
  end%char.

(** A run of [n] space characters. *)
Definition spaces (n : nat) : string :=
  string_of_list_ascii (List.repeat " "%char n).

(** The lines of a text: the pieces between its newlines, as
    [String.prototype.split] returns them. *)
Fixpoint split_lines (s : string) : list string :=
  match s with
  | EmptyString => [""]
  | String c rest =>
      if Ascii.eqb c "010" then "" :: split_lines rest
      else match split_lines rest with
           | line :: lines => String c line :: lines
           | [] => [String c ""]
           end
  end.

(** The text of all the strings of a list, one after the other. *)
Definition concat_all (xs : list string) : string :=
  fold_right append "" xs.

(** The line of a method, written from its description: the name, the two
    types, and for each direction whether the streaming keyword is there. *)
Definition rpc_line (name : string) (instream : bool) (input : string)
           (outstream : bool) (returns : string) : string :=
  "rpc " ++ name ++ "(" ++ (if instream then "stream " else "") ++ input
    ++ ") returns (" ++ (if outstream then "stream " else "") ++ returns
    ++ ");".

(** The two buckets of the reservations of a message, written from their
    description: the numeric entries and the names, each in input order. *)
Definition reservation_is_numeric (v : ProtoReservation) : bool :=
  match v with
  | ReservedNumber _ | ReservedRange _ _ => true
  | ReservedName _ => false
  end.

Definition reserved_number_text (v : ProtoReservation) : string :=
  match v with
  | ReservedNumber n => JS.Number_toString n
  | ReservedRange lo hi =>
      JS.Number_toString lo ++ " to " ++ JS.Number_toString hi
  | ReservedName s => s
  end.

Definition reserved_name_text (v : ProtoReservation) : string :=
  match v with
  | ReservedName s => JS.dq ++ s ++ JS.dq
  | ReservedNumber n => JS.dq ++ JS.Number_toString n ++ JS.dq
  | ReservedRange lo hi =>
      JS.dq ++ (JS.Number_toString lo ++ "," ++ JS.Number_toString hi) ++ JS.dq
  end.

Definition numeric_bucket (entries : list ProtoReservation) : list string :=
  List.map reserved_number_text (List.filter reservation_is_numeric entries).

Definition name_bucket (entries : list ProtoReservation) : list string :=
  List.map reserved_name_text
    (List.filter (fun v => negb (reservation_is_numeric v)) entries).

(** The statement of an enum variant, a pair of a name and a number. *)
Definition variant_line (variant : string * Z) : string :=
  fst variant ++ " = " ++ JS.Number_toString (snd variant) ++ ";".

(** One [reserved] statement for a bucket, none for an empty bucket. *)
Definition reserved_line (bucket : list string) : list string :=
  match bucket with
  | [] => []
  | _ :: _ => ["reserved " ++ JS.join bucket ", " ++ ";"]
  end.

(** ** The parts of a rendered file

    The text of each part, written from the description of the file
    assembler: header, package, imports, options, declarations. *)

Definition package_line (name : string) : string :=
  "package " ++ name ++ ";".

Definition package_text (p : option string) : string :=
  match p with
  | Some (String _ _ as name) => JS.nl ++ package_line name ++ JS.nl
  | _ => ""
  end.

Definition import_line (path : string) : string :=
  "import " ++ JS.dq ++ path ++ JS.dq ++ ";".

Definition imports_text (paths : list string) : string :=
  concat_all (List.map (fun path => JS.nl ++ import_line path) paths)
  ++ match paths with [] => "" | _ :: _ => JS.nl end.

Definition option_value_text (v : OptionValue) : string :=
  match v with
  | OptString s => JS.dq ++ s ++ JS.dq
  | OptNumber n => JS.Number_toString n
  | OptBoolean b => JS.Boolean_toString b
  end.

Definition option_line (entry : string * OptionValue) : string :=
  "option (" ++ fst entry ++ ") = " ++ option_value_text (snd entry).

Definition options_text (opts : list (string * OptionValue)) : string :=
  concat_all (List.map (fun entry => JS.nl ++ option_line entry) opts)
  ++ match opts with [] => "" | _ :: _ => JS.nl end.

Section Parts.

Context {SM : StreamingMode}.

(** The block of a top-level declaration: its lines joined by newlines. *)
Definition declaration_block (decl : ProtoDeclaration) : string :=
  JS.join (writeDeclaration decl) JS.nl.

Definition declarations_text (decls : list ProtoDeclaration) : string :=
  concat_all
    (List.map (fun decl => JS.nl ++ declaration_block decl ++ JS.nl) decls).

(** Everything that comes before the declarations. *)
Definition preamble (file : ProtoFile) : string :=
  PROTO_HEADER ++ package_text (package file)
    ++ imports_text (imports file) ++ options_text (options file).

End Parts.

(** ** Reading the lines of a rendered declaration *)

(** A line without its leading spaces. *)
Fixpoint strip_spaces (s : string) : string :=
  match s with
  | String " " rest => strip_spaces rest
  | _ => s
  end.

(** A line that opens a block ends in an opening brace; a line that closes
    one is a closing brace after its indentation. *)
Definition opens_block (line : string) : bool :=
  match last_char line with
  | Some c => Ascii.eqb c "{"
  | None => false
  end.

Definition closes_block (line : string) : bool :=
  (strip_spaces line =? "}")%string.

(** The number of blocks open after the lines, from [depth] open blocks
    before them; nothing when a line closes a block that was not opened. *)
Fixpoint brace_depth (lines : list string) (depth : nat) : option nat :=
  match lines with
  | [] => Some depth
  | line :: rest =>
      if opens_block line then brace_depth rest (S depth)
      else if closes_block line then
        match depth with
        | O => None
        | S depth' => brace_depth rest depth'
        end
      else brace_depth rest depth
  end.

(** The margin after the lines, from the margin before them, when every
    line stands at its margin: an empty line anywhere, a closing brace two
    columns left of the margin it ends, any other line at the margin, the
    margin moving two columns right after a line that opens a block. *)
Fixpoint margin_after (lines : list string) (margin : nat) : option nat :=
  match lines with
  | [] => Some margin
  | line :: rest =>
      if (line =? "")%string then margin_after rest margin
      else if closes_block line then
        if (2 <=? margin)%nat && (leading_spaces line =? margin - 2)%nat
        then margin_after rest (margin - 2)
        else None
      else if (leading_spaces line =? margin)%nat then
        margin_after rest (if opens_block line then margin + 2 else margin)%nat
      else None
  end.

(** A string that holds no newline. *)
Fixpoint no_newline (s : string) : bool :=
  match s with
  | EmptyString => true
  | String c rest => negb (Ascii.eqb c "010") && no_newline rest
  end.

(** A string that starts with a character that is no space. *)
Definition starts_flush (s : string) : bool :=
  match s with
  | EmptyString => false
  | String c _ => negb (Ascii.eqb c " ")
  end.

(** Trees whose names and type names hold no newline. *)
Fixpoint type_no_newline (type : ProtoType) : bool :=
  match type with
  | ProtoScalar s => no_newline s
  | ProtoRef r => no_newline r
  | ProtoMap k v => no_newline k && type_no_newline v
  end.

Definition reservation_no_newline (v : ProtoReservation) : bool :=
  match v with
  | ReservedName s => no_newline s
  | ReservedNumber _ | ReservedRange _ _ => true
  end.

Definition method_no_newline (decl : ProtoMethodDeclaration) : bool :=
  no_newline (method_name decl) && type_no_newline (method_input decl)
  && type_no_newline (method_returns decl).

Fixpoint declaration_no_newline (decl : ProtoDeclaration) : bool :=
  match decl with
  | DeclMessage (Message name declarations reservations) =>
      no_newline name
      && forallb declaration_no_newline declarations
      && match reservations with
         | Some entries => forallb reservation_no_newline entries
         | None => true
         end
  | DeclService decl =>
      no_newline (service_name decl)
      && forallb method_no_newline (service_operations decl)
  | DeclField decl =>
      no_newline (field_name decl) && type_no_newline (field_type decl)
  | DeclOneOf (OneOf name declarations) =>
      no_newline name && forallb declaration_no_newline declarations
  | DeclEnum decl =>
      no_newline (enum_name decl)
      && forallb (fun variant => no_newline (fst variant))
                 (enum_variants decl)
  | DeclMethod decl => method_no_newline decl
  end.


(** ** Concrete trees *)

(** Streaming masks that are two different bits: bit 1 for the input, bit 0
    for the output. *)
Definition two_bit_masks : StreamingMode :=
  {| StreamingMode_In := 2; StreamingMode_Out := 1 |}.

(** A map field, and a message whose only member is a oneof around it. *)
Definition example_map_field : ProtoFieldDeclaration :=
  {| field_name := "f";
     field_type := ProtoMap "string" (ProtoScalar "int32");
     field_index := 1;
     field_repeated := false |}.

Definition example_oneof_message : ProtoDeclaration :=
  DeclMessage
    (Message "M" [DeclOneOf (OneOf "O" [DeclField example_map_field])] None).

(** A message with reservations, a repeated field, an enum with aliases, a
    message inside it and a oneof; and a service of two methods. *)
Definition example_nested_message : ProtoDeclaration :=
  DeclMessage
    (Message "Outer"
       [DeclField {| field_name := "ids"; field_type := ProtoScalar "int32";
                     field_index := 1; field_repeated := true |};
        DeclEnum {| enum_name := "Kind"; enum_allowAlias := true;
                    enum_variants := [("A", 0); ("B", 0)] |};
        DeclMessage
          (Message "Inner"
             [DeclField {| field_name := "peer"; field_type := ProtoRef "Outer";
                           field_index := 1; field_repeated := false |}]
             None);
        DeclMessage (Message "Empty" [] None);
        DeclOneOf (OneOf "choice" [DeclField example_map_field])]
       (Some [ReservedName "old"; ReservedNumber 5; ReservedRange 10 12])).

Definition example_service : ProtoDeclaration :=
  DeclService
    {| service_name := "Greeter";
       service_operations :=
         [{| method_name := "Hello"; method_input := ProtoRef "Req";
             method_returns := ProtoRef "Res"; method_stream := 0 |};
          {| method_name := "Watch"; method_input := ProtoRef "Req";
             method_returns := ProtoRef "Res"; method_stream := 1 |}] |}.

(** ** Strings *)

Lemma append_nil_r (s : string) : s ++ "" = s.
Proof. induction s as [|c s IH]; simpl; [reflexivity | now rewrite IH]. Qed.

Lemma append_assoc (a b c : string) : (a ++ b) ++ c = a ++ (b ++ c).
Proof. induction a as [|x a IH]; simpl; [reflexivity | now rewrite IH]. Qed.

Lemma strict_neq_empty (s : string) :
  JS.strict_neq s "" = JS.truthy_string s.
Proof. destruct s; reflexivity. Qed.

Lemma truthy_string_append_l (a b : string) :
  JS.truthy_string a = true -> JS.truthy_string (a ++ b) = true.
Proof. destruct a; simpl; [discriminate | reflexivity]. Qed.

Lemma truthy_string_append_r (a b : string) :
  JS.truthy_string b = true -> JS.truthy_string (a ++ b) = true.
Proof. destruct a; simpl; [trivial | reflexivity]. Qed.

Lemma last_char_append (a b : string) :
  JS.truthy_string b = true -> last_char (a ++ b) = last_char b.
Proof.
  intros Hb. induction a as [|c a IH]; simpl; [reflexivity|].
  rewrite IH. destruct (a ++ b) eqn:E; [|reflexivity].
  destruct a; simpl in E; [subst b|]; discriminate.
Qed.

Lemma last_char_snoc (a : string) (c : ascii) :
  last_char (a ++ String c "") = Some c.
Proof. now rewrite last_char_append. Qed.

Lemma repeat_spaces (n : nat) : JS.repeat " " n = spaces n.
Proof.
  unfold spaces. induction n as [|n IH]; simpl; [reflexivity | now rewrite IH].
Qed.

Lemma leading_spaces_spaces (n : nat) (s : string) :
  leading_spaces s = O -> leading_spaces (spaces n ++ s) = n.
Proof.
  intros Hs. unfold spaces.
  induction n as [|n IH]; simpl; [assumption | now rewrite IH].
Qed.

Lemma length_spaces (n : nat) : String.length (spaces n) = n.
Proof.
  unfold spaces. induction n as [|n IH]; simpl; [reflexivity | now rewrite IH].
Qed.

(** ** The accumulator *)

Lemma for_of_append {T : Type} (it : list T) (g : T -> string) (r : string) :
  Emit.run (Emit.for_of it (fun v => Emit.append (g v))) r
  = (tt, r ++ concat_all (List.map g it)).
Proof.
  revert r. induction it as [|v it IH]; intros r; simpl.
  - unfold Emit.run, Emit.ret. now rewrite append_nil_r.
  - unfold Emit.run, Emit.bind, Emit.append in *. rewrite IH.
    now rewrite append_assoc.
Qed.

Lemma for_of_ext {T : Type} (it : list T) (body1 body2 : T -> Emit.M unit) :
  (forall v, body1 v = body2 v) ->
  Emit.for_of it body1 = Emit.for_of it body2.
Proof.
  intros H. induction it as [|v it IH]; simpl; [reflexivity|].
  now rewrite H, IH.
Qed.

(** ** The layout of a rendered file *)

Section Layout.

Context {SM : StreamingMode}.

(** A run of the body leaves in [result], and returns, the five parts in
    their fixed order, whatever [result] held before. *)
Lemma writeProtoFile_body_run (file : ProtoFile) (result0 : string) :
  Emit.run (writeProtoFile_body file) result0
  = (preamble file ++ declarations_text (declarations file),
     preamble file ++ declarations_text (declarations file)).
Proof.
  unfold writeProtoFile_body, preamble.
  destruct file as [pkg imps opts decls]; simpl.
  rewrite (for_of_ext opts _ (fun entry => Emit.append (JS.nl ++ option_line entry)))
    by (intros [name [s|n|b]]; reflexivity).
  unfold Emit.run, Emit.bind at 1. simpl.
  assert (Hpkg : forall r,
    match pkg with
    | Some p => Emit.when (JS.truthy_string p)
                  (Emit.append (JS.nl ++ "package " ++ p ++ ";" ++ JS.nl))
    | None => Emit.ret tt
    end r = (tt, r ++ package_text pkg)).
  { intros r. destruct pkg as [[|c p]|]; simpl;
      unfold Emit.ret, Emit.append, package_line;
      now rewrite ?append_nil_r, ?append_assoc. }
  unfold Emit.bind at 1. rewrite Hpkg.
  unfold Emit.bind at 1.
  change (Emit.for_of imps ?b ?r) with (Emit.run (Emit.for_of imps b) r).
  rewrite (for_of_append imps (fun path => JS.nl ++ import_line path)).
  unfold Emit.bind at 1.
  assert (Hwhen : forall (T : Type) (l : list T) r,
    Emit.when (0 <? List.length l)%nat (Emit.append JS.nl) r
    = (tt, r ++ match l with [] => "" | _ :: _ => JS.nl end)).
  { intros T [|x l] r; simpl; unfold Emit.ret, Emit.append;
      now rewrite ?append_nil_r. }
  rewrite Hwhen.
  unfold Emit.bind at 1.
  change (Emit.for_of opts ?b ?r) with (Emit.run (Emit.for_of opts b) r).
  rewrite for_of_append.
  unfold Emit.bind at 1. rewrite Hwhen.
  unfold Emit.bind at 1.
  rewrite (for_of_ext decls _
             (fun decl => Emit.append (JS.nl ++ declaration_block decl ++ JS.nl)))
    by reflexivity.
  change (Emit.for_of decls ?b ?r) with (Emit.run (Emit.for_of decls b) r).
  rewrite for_of_append.
  unfold Emit.read, imports_text, options_text, declarations_text.
  rewrite !append_assoc. reflexivity.
Qed.

Lemma writeProtoFile_layout (file : ProtoFile) :
  writeProtoFile file
  = preamble file ++ declarations_text (declarations file).
Proof.
  unfold writeProtoFile. now rewrite writeProtoFile_body_run.
Qed.

End Layout.

(** ** Bitwise tests on 32-bit integers *)

Lemma ToInt32_range (x : Z) : - 2 ^ 31 <= JS.ToInt32 x < 2 ^ 31.
Proof.
  unfold JS.ToInt32. pose proof (Z.mod_pos_bound x (2 ^ 32) ltac:(lia)).
  destruct (Z.ltb_spec (x mod 2 ^ 32) (2 ^ 31)); lia.
Qed.

Lemma ToInt32_mod (x : Z) : JS.ToInt32 x mod 2 ^ 32 = x mod 2 ^ 32.
Proof.
  unfold JS.ToInt32.
  destruct (Z.ltb_spec (x mod 2 ^ 32) (2 ^ 31)).
  - apply Z.mod_mod. lia.
  - replace (x mod 2 ^ 32 - 2 ^ 32) with (x mod 2 ^ 32 + (-1) * 2 ^ 32) by lia.
    rewrite Z_mod_plus_full. apply Z.mod_mod. lia.
Qed.

Lemma ToInt32_testbit_low (x i : Z) :
  0 <= i < 32 -> Z.testbit (JS.ToInt32 x) i = Z.testbit x i.
Proof.
  intros Hi.
  rewrite <- (Z.mod_pow2_bits_low (JS.ToInt32 x) 32 i) by lia.
  rewrite ToInt32_mod. apply Z.mod_pow2_bits_low. lia.
Qed.

Lemma int32_sign_bits (a n : Z) :
  - 2 ^ 31 <= a < 2 ^ 31 -> 31 <= n -> Z.testbit a n = (a <? 0)%Z.
Proof.
  intros Ha Hn.
  assert (Hpow : 2 ^ 31 <= 2 ^ n) by (apply Z.pow_le_mono_r; lia).
  destruct (Z.ltb_spec a 0) as [Hneg|Hpos].
  - apply Z.testbit_true; [lia|].
    replace (a / 2 ^ n) with (-1); [reflexivity|].
    apply (Z.div_unique a (2 ^ n) (-1) (a + 2 ^ n)); lia.
  - apply Z.testbit_false; [lia|].
    rewrite Z.div_small by lia. reflexivity.
Qed.

Lemma ToInt32_testbit_high (x n : Z) :
  31 <= n -> Z.testbit (JS.ToInt32 x) n = Z.testbit x 31.
Proof.
  intros Hn.
  rewrite (int32_sign_bits _ n (ToInt32_range x) Hn).
  rewrite <- (int32_sign_bits _ 31 (ToInt32_range x)) by lia.
  apply ToInt32_testbit_low. lia.
Qed.

(** [s & 2^k] is truthy exactly when bit [k] of [s] is set. *)
Lemma bitand_pow2_truthy (s k : Z) :
  0 <= k < 32 ->
  JS.truthy_number (JS.bitand s (2 ^ k)) = Z.testbit s k.
Proof.
  intros Hk. unfold JS.truthy_number, JS.bitand.
  destruct (Z.testbit s k) eqn:Hbit.
  - apply negb_true_iff, Z.eqb_neq. intros H0.
    assert (Hk' : Z.testbit (Z.land (JS.ToInt32 s) (JS.ToInt32 (2 ^ k))) k = true).
    { rewrite Z.land_spec, !ToInt32_testbit_low by lia.
      rewrite Hbit, Z.pow2_bits_true by lia. reflexivity. }
    rewrite H0, Z.bits_0 in Hk'. discriminate.
  - apply negb_false_iff, Z.eqb_eq. apply Z.bits_inj'. intros n Hn.
    rewrite Z.land_spec, Z.bits_0.
    destruct (Z.lt_ge_cases n 32) as [Hlow|Hhigh].
    + rewrite !ToInt32_testbit_low by lia.
      rewrite Z.pow2_bits_eqb by lia.
      destruct (Z.eqb_spec k n) as [->|Hne];
        [now rewrite Hbit | apply andb_false_r].
    + rewrite !ToInt32_testbit_high by lia.
      rewrite Z.pow2_bits_eqb by lia.
      destruct (Z.eqb_spec k 31) as [->|Hne];
        [now rewrite Hbit | apply andb_false_r].
Qed.

(** ** Lines that are never empty *)

Lemma writeField_truthy (decl : ProtoFieldDeclaration) :
  JS.truthy_string (writeField decl) = true.
Proof.
  unfold writeField. destruct (field_repeated decl); [reflexivity|].
  simpl. apply truthy_string_append_r. reflexivity.
Qed.

Lemma indent_map (it : list string) (depth : option nat) :
  indent it depth
  = List.map
      (fun line =>
         match line with
         | EmptyString => EmptyString
         | String _ _ =>
             spaces (match depth with Some d => d | None => 2%nat end) ++ line
         end) it.
Proof.
  unfold indent. apply List.map_ext. intros [|c line]; simpl;
    [reflexivity | now rewrite repeat_spaces].
Qed.

Lemma indent_truthy (it : list string) (depth : option nat) :
  List.map JS.truthy_string (indent it depth) = List.map JS.truthy_string it.
Proof.
  unfold indent. rewrite List.map_map. apply List.map_ext.
  intros [|c line]; simpl; [reflexivity|].
  apply truthy_string_append_r. reflexivity.
Qed.

Lemma indent_app (a b : list string) (depth : option nat) :
  indent (a +++ b) depth = indent a depth +++ indent b depth.
Proof. unfold indent. apply List.map_app. Qed.

Section Properties.

Context {SM : StreamingMode}.

(** C9.  [indent] prefixes every non-empty line with exactly [depth] spaces,
    two when [depth] is omitted, and returns every empty line as it is; so
    after any number of nested indentations the empty lines are the same
    lines, still empty. *)
Theorem indent_prefixes_nonempty_lines (it : list string) (depth : option nat) :
  let d := match depth with Some d => d | None => 2%nat end in
  indent it depth
  = List.map
      (fun line =>
         match line with
         | EmptyString => EmptyString
         | String _ _ => spaces d ++ line
         end) it
  /\ String.length (spaces d) = d
  /\ forall levels : nat,
       List.map JS.truthy_string
         (Nat.iter levels (fun lines => indent lines depth) it)
       = List.map JS.truthy_string it.
Proof.
  cbv zeta. split; [apply indent_map|]. split; [apply length_spaces|].
  induction levels as [|levels IH]; simpl; [reflexivity|].
  now rewrite indent_truthy.
Qed.

(** C3.  A message with no nested declaration and no reservation (absent or
    an empty array) is the one line [message <Name> {}]; the same message
    with one field is three lines: the opening line, the line of the field
    after two spaces, and the closing brace. *)
Theorem writeMessage_empty_body_collapse
        (name : string) (f : ProtoFieldDeclaration) :
  writeMessage (Message name [] None) = ["message " ++ name ++ " {}"]
  /\ writeMessage (Message name [] (Some [])) = ["message " ++ name ++ " {}"]
  /\ writeMessage (Message name [DeclField f] None)
     = ["message " ++ name ++ " {"; "  " ++ writeField f; "}"]
  /\ writeMessage (Message name [DeclField f] (Some []))
     = ["message " ++ name ++ " {"; "  " ++ writeField f; "}"].
Proof.
  repeat split; simpl; unfold indent, flatMap;
    cbn [List.map flatMap_of app];
    rewrite ?strict_neq_empty, ?writeField_truthy, ?append_assoc;
    reflexivity.
Qed.

(** C7.  With the allow-alias flag set, the first line inside the enum body
    is [  option allow_alias = true;], two spaces and the statement; an empty
    line follows exactly when the enum has a variant; then one line per
    variant, [<Name> = <Index>;] after two spaces, in the order and the
    number of the declared variants. *)
Theorem writeEnum_allow_alias (name : string) (variants : list (string * Z)) :
  writeEnum {| enum_name := name; enum_allowAlias := true;
               enum_variants := variants |}
  = ["enum " ++ name ++ " {"; "  option allow_alias = true;"]
    +++ match variants with [] => [] | _ :: _ => [""] end
    +++ List.map (fun variant => "  " ++ variant_line variant) variants
    +++ ["}"].
Proof.
  unfold writeEnum. cbn [enum_name enum_allowAlias enum_variants app].
  f_equal. f_equal.
  assert (Hlines :
    indent (flatMap variants
              (fun '(name, idx) =>
                 inl (name ++ " = " ++ JS.Number_toString idx ++ ";"))) None
    = List.map (fun variant => "  " ++ variant_line variant) variants).
  { unfold flatMap. induction variants as [|[n idx] variants IH];
      [reflexivity|].
    cbn [flatMap_of List.map fst snd]. rewrite <- IH.
    unfold indent at 1. cbn [List.map]. f_equal.
    destruct n; reflexivity. }
  rewrite Hlines. destruct variants; reflexivity.
Qed.

(** ** The buckets of [selectMap] *)

Lemma selectMap_filter {TIn TOut K : Type} (K_eqb : K -> K -> bool)
      (source : list TIn) (select : TIn -> K) (delegates : K -> TIn -> TOut)
      (k : K) :
  (forall a b, K_eqb a b = true <-> a = b) ->
  selectMap K_eqb source select delegates k
  = List.map (delegates k)
      (List.filter (fun v => K_eqb (select v) k) source).
Proof.
  intros Heqb. unfold selectMap.
  rewrite <- (List.app_nil_l (List.map _ _)).
  change (@nil TOut) with ((fun _ : K => @nil TOut) k) at 2.
  generalize (fun _ : K => @nil TOut) as acc.
  induction source as [|v source IH]; intros acc; simpl.
  - now rewrite List.app_nil_r.
  - rewrite IH. unfold push.
    destruct (K_eqb (select v) k) eqn:E; [|reflexivity].
    apply Heqb in E. rewrite E. now rewrite <- List.app_assoc.
Qed.

Lemma ReservationSelector_eqb_eq (a b : ReservationSelector) :
  ReservationSelector_eqb a b = true <-> a = b.
Proof. destruct a, b; simpl; split; congruence. Qed.

(** C4.  The reservations of a message are split into the numeric entries
    ([N], or [N to M] for a range) and the names (in double quotes), each
    bucket in input order; the numeric [reserved] line comes first, then the
    line of the names, each only for a non-empty bucket, and one empty line
    closes them whenever there is an entry; with no reservation, absent or
    empty, nothing is emitted. *)
Theorem writeReservations_partitions
        (name : string) (decls : list ProtoDeclaration)
        (entries : list ProtoReservation) :
  writeReservations (Message name decls (Some entries))
  = reserved_line (numeric_bucket entries)
    +++ reserved_line (name_bucket entries)
    +++ match entries with [] => [] | _ :: _ => [""] end
  /\ writeReservations (Message name decls None) = [].
Proof.
  split; [|reflexivity].
  unfold writeReservations. cbn [message_reservations].
  rewrite !(selectMap_filter _ _ _ _ _ ReservationSelector_eqb_eq).
  rewrite (List.filter_ext _ reservation_is_numeric)
    by (intros []; reflexivity).
  rewrite (List.filter_ext
             (fun v => ReservationSelector_eqb _ reservedNames)
             (fun v => negb (reservation_is_numeric v)))
    by (intros []; reflexivity).
  repeat match goal with
  | |- context [List.map ?f (List.filter reservation_is_numeric entries)] =>
      rewrite (List.map_ext f reserved_number_text)
        by (intros []; reflexivity)
  | |- context [List.map ?f (List.filter (fun v => negb _) entries)] =>
      rewrite (List.map_ext f reserved_name_text)
        by (intros []; simpl; rewrite ?append_assoc; reflexivity)
  end.
  fold (numeric_bucket entries). fold (name_bucket entries).
  destruct entries as [|v rest]; [reflexivity|].
  destruct (numeric_bucket (v :: rest)) eqn:EN,
           (name_bucket (v :: rest)) eqn:EM; try reflexivity.
  unfold numeric_bucket, name_bucket in EN, EM.
  destruct v; simpl in EN, EM; discriminate.
Qed.

(** ** The two streaming bits *)

Lemma writeMethod_rpc_line (kin kout : Z) (decl : ProtoMethodDeclaration) :
  StreamingMode_In = 2 ^ kin -> StreamingMode_Out = 2 ^ kout ->
  0 <= kin < 32 -> 0 <= kout < 32 ->
  writeMethod decl
  = rpc_line (method_name decl)
      (Z.testbit (method_stream decl) kin) (writeType (method_input decl))
      (Z.testbit (method_stream decl) kout) (writeType (method_returns decl)).
Proof.
  intros Hin Hout Hkin Hkout. unfold writeMethod, rpc_line.
  cbn [List.map nth]. rewrite Hin, Hout.
  now rewrite !bitand_pow2_truthy by assumption.
Qed.

(** C1.  The streaming masks being two different bits of a 32-bit integer:
    a method is rendered as one line, and for a method named [M] from the
    type [X] to the type [Y] that line is [rpc M(X) returns (Y);] with
    [stream ] before [X] exactly when the input bit of the mask of the
    method is set, and before [Y] exactly when the output bit is set.  The
    text of a type is its name for a reference and for a scalar, and
    [map<K, V>] for a map.  The two bits are independent: each of the four
    lines of the specification is the rendering of some method. *)
Theorem writeMethod_streaming_bits (kin kout : Z) :
  StreamingMode_In = 2 ^ kin -> StreamingMode_Out = 2 ^ kout ->
  0 <= kin < 32 -> 0 <= kout < 32 -> kin <> kout ->
  (forall decl : ProtoMethodDeclaration,
      writeDeclaration (DeclMethod decl) = [writeMethod decl]
      /\ writeMethod decl
         = rpc_line (method_name decl)
             (Z.testbit (method_stream decl) kin)
             (writeType (method_input decl))
             (Z.testbit (method_stream decl) kout)
             (writeType (method_returns decl)))
  /\ (forall (X k : string) (v : ProtoType),
         writeType (ProtoRef X) = X
         /\ writeType (ProtoScalar X) = X
         /\ writeType (ProtoMap k v) = "map<" ++ k ++ ", " ++ writeType v ++ ">")
  /\ (forall (M X Y : string) (stream : Z),
         writeMethod {| method_name := M; method_input := ProtoRef X;
                        method_returns := ProtoRef Y;
                        method_stream := stream |}
         = "rpc " ++ M ++ "("
             ++ (if Z.testbit stream kin then "stream " else "") ++ X
             ++ ") returns ("
             ++ (if Z.testbit stream kout then "stream " else "") ++ Y
             ++ ");")
  /\ (forall M X Y : string,
         rpc_line M false X false Y
         = "rpc " ++ M ++ "(" ++ X ++ ") returns (" ++ Y ++ ");"
         /\ rpc_line M true X false Y
            = "rpc " ++ M ++ "(stream " ++ X ++ ") returns (" ++ Y ++ ");"
         /\ rpc_line M false X true Y
            = "rpc " ++ M ++ "(" ++ X ++ ") returns (stream " ++ Y ++ ");"
         /\ rpc_line M true X true Y
            = "rpc " ++ M ++ "(stream " ++ X ++ ") returns (stream "
                    ++ Y ++ ");")
  /\ (forall (M : string) (X Y : ProtoType) (instream outstream : bool),
         exists stream : Z,
           Z.testbit stream kin = instream
           /\ Z.testbit stream kout = outstream
           /\ writeMethod {| method_name := M; method_input := X;
                             method_returns := Y; method_stream := stream |}
              = rpc_line M instream (writeType X) outstream (writeType Y))
  /\ (forall M X Y : string,
         exists unary client server duplex : Z,
           writeMethod {| method_name := M; method_input := ProtoRef X;
                          method_returns := ProtoRef Y;
                          method_stream := unary |}
           = "rpc " ++ M ++ "(" ++ X ++ ") returns (" ++ Y ++ ");"
           /\ writeMethod {| method_name := M; method_input := ProtoRef X;
                             method_returns := ProtoRef Y;
                             method_stream := client |}
              = "rpc " ++ M ++ "(stream " ++ X ++ ") returns (" ++ Y ++ ");"
           /\ writeMethod {| method_name := M; method_input := ProtoRef X;
                             method_returns := ProtoRef Y;
                             method_stream := server |}
              = "rpc " ++ M ++ "(" ++ X ++ ") returns (stream " ++ Y ++ ");"
           /\ writeMethod {| method_name := M; method_input := ProtoRef X;
                             method_returns := ProtoRef Y;
                             method_stream := duplex |}
              = "rpc " ++ M ++ "(stream " ++ X ++ ") returns (stream "
                      ++ Y ++ ");").
Proof.
  intros Hin Hout Hkin Hkout Hne.
  assert (Hlines : forall M X Y : string,
    rpc_line M false X false Y
    = "rpc " ++ M ++ "(" ++ X ++ ") returns (" ++ Y ++ ");"
    /\ rpc_line M true X false Y
       = "rpc " ++ M ++ "(stream " ++ X ++ ") returns (" ++ Y ++ ");"
    /\ rpc_line M false X true Y
       = "rpc " ++ M ++ "(" ++ X ++ ") returns (stream " ++ Y ++ ");"
    /\ rpc_line M true X true Y
       = "rpc " ++ M ++ "(stream " ++ X ++ ") returns (stream "
               ++ Y ++ ");").
  { intros M X Y. unfold rpc_line. repeat split; reflexivity. }
  assert (Hreach : forall (M : string) (X Y : ProtoType)
                          (instream outstream : bool),
    exists stream : Z,
      Z.testbit stream kin = instream
      /\ Z.testbit stream kout = outstream
      /\ writeMethod {| method_name := M; method_input := X;
                        method_returns := Y; method_stream := stream |}
         = rpc_line M instream (writeType X) outstream (writeType Y)).
  { intros M X Y instream outstream.
    exists (Z.lor (if instream then 2 ^ kin else 0)
                  (if outstream then 2 ^ kout else 0)).
    assert (Hbits : forall k,
      0 <= k ->
      Z.testbit (Z.lor (if instream then 2 ^ kin else 0)
                       (if outstream then 2 ^ kout else 0)) k
      = (instream && (kin =? k)%Z) || (outstream && (kout =? k)%Z)).
    { intros k Hk. rewrite Z.lor_spec.
      destruct instream, outstream;
        rewrite ?Z.pow2_bits_eqb, ?Z.bits_0 by lia; reflexivity. }
    assert (Hi : Z.testbit (Z.lor (if instream then 2 ^ kin else 0)
                       (if outstream then 2 ^ kout else 0)) kin = instream).
    { rewrite Hbits by lia. rewrite Z.eqb_refl.
      destruct (Z.eqb_spec kout kin); [congruence|].
      destruct instream, outstream; reflexivity. }
    assert (Ho : Z.testbit (Z.lor (if instream then 2 ^ kin else 0)
                       (if outstream then 2 ^ kout else 0)) kout = outstream).
    { rewrite Hbits by lia. rewrite Z.eqb_refl.
      destruct (Z.eqb_spec kin kout); [congruence|].
      destruct instream, outstream; reflexivity. }
    split; [exact Hi|]. split; [exact Ho|].
    rewrite (writeMethod_rpc_line kin kout) by assumption.
    cbn [method_name method_input method_returns method_stream].
    now rewrite Hi, Ho. }
  split; [|split; [|split; [|split; [|split]]]].
  - intros decl. split; [reflexivity|].
    now apply writeMethod_rpc_line.
  - intros X k v. repeat split; reflexivity.
  - intros M X Y stream.
    rewrite (writeMethod_rpc_line kin kout) by assumption. reflexivity.
  - exact Hlines.
  - exact Hreach.
  - intros M X Y.
    destruct (Hreach M (ProtoRef X) (ProtoRef Y) false false)
      as [unary [_ [_ Hunary]]].
    destruct (Hreach M (ProtoRef X) (ProtoRef Y) true false)
      as [client [_ [_ Hclient]]].
    destruct (Hreach M (ProtoRef X) (ProtoRef Y) false true)
      as [server [_ [_ Hserver]]].
    destruct (Hreach M (ProtoRef X) (ProtoRef Y) true true)
      as [duplex [_ [_ Hduplex]]].
    exists unary, client, server, duplex.
    destruct (Hlines M X Y) as [H00 [H10 [H01 H11]]].
    cbn [writeType] in Hunary, Hclient, Hserver, Hduplex.
    rewrite Hunary, Hclient, Hserver, Hduplex. auto.
Qed.

(** ** The last character of a statement *)

Lemma last_char_split (s : string) (c : ascii) :
  last_char s = Some c -> exists before, s = before ++ String c "".
Proof.
  induction s as [|x s IH]; simpl; [discriminate|].
  destruct s as [|y s].
  - intros [= ->]. now exists "".
  - intros H. destruct (IH H) as [before Hb].
    exists (String x before). simpl. now rewrite <- Hb.
Qed.

Lemma last_char_truthy (s : string) (c : ascii) :
  last_char s = Some c -> JS.truthy_string s = true.
Proof. destruct s; simpl; [discriminate | reflexivity]. Qed.

Lemma string_of_uint_last_digit (d : Decimal.uint) :
  d <> Decimal.Nil ->
  exists c, last_char (NilEmpty.string_of_uint d) = Some c
            /\ is_digit c = true.
Proof.
  induction d as [|d IH|d IH|d IH|d IH|d IH|d IH|d IH|d IH|d IH|d IH];
    intros Hd; [congruence|..];
    (destruct d as [|d'|d'|d'|d'|d'|d'|d'|d'|d'|d'];
     [ eexists; split; reflexivity
     | destruct IH as [c [Hc Hdig]]; [discriminate|];
       exists c; split; [exact Hc | exact Hdig] .. ]).
Qed.

Lemma Number_toString_last_digit (n : Z) :
  exists c, last_char (JS.Number_toString n) = Some c /\ is_digit c = true.
Proof.
  assert (Hu : forall d,
    exists c, last_char (NilZero.string_of_uint d) = Some c
              /\ is_digit c = true).
  { intros d. destruct d;
      try (apply string_of_uint_last_digit; discriminate).
    eexists; split; reflexivity. }
  unfold JS.Number_toString, NilZero.string_of_int.
  destruct (Z.to_int n) as [d|d]; [apply Hu|].
  destruct (Hu d) as [c [Hc Hdig]]. exists c. split; [|exact Hdig].
  change (String "-" (NilZero.string_of_uint d))
    with ("-" ++ NilZero.string_of_uint d).
  rewrite last_char_append; [exact Hc | now apply last_char_truthy in Hc].
Qed.

Lemma option_line_last_char (entry : string * OptionValue) :
  exists c, last_char (option_line entry) = Some c
            /\ (c = "034"%char \/ c = "e"%char \/ is_digit c = true).
Proof.
  destruct entry as [name [s|n|b]]; unfold option_line; cbn [fst snd].
  - exists "034"%char. split; [|now left].
    unfold option_value_text, JS.dq.
    rewrite <- !append_assoc. apply last_char_snoc.
  - destruct (Number_toString_last_digit n) as [c [Hc Hdig]].
    exists c. split; [|now right; right].
    cbn [option_value_text].
    rewrite <- !append_assoc, last_char_append;
      [exact Hc | now apply last_char_truthy in Hc].
  - exists "e"%char. split; [|now right; left].
    cbn [option_value_text]. rewrite <- !append_assoc.
    rewrite last_char_append; destruct b; reflexivity.
Qed.

Lemma writeField_last_char (decl : ProtoFieldDeclaration) :
  last_char (writeField decl) = Some ";"%char.
Proof.
  unfold writeField. rewrite <- !append_assoc. apply last_char_snoc.
Qed.

Lemma writeMethod_last_char (decl : ProtoMethodDeclaration) :
  last_char (writeMethod decl) = Some ";"%char.
Proof.
  unfold writeMethod. cbv zeta. rewrite <- !append_assoc.
  now rewrite last_char_append.
Qed.

Lemma variant_line_last_char (variant : string * Z) :
  last_char (variant_line variant) = Some ";"%char.
Proof.
  unfold variant_line. rewrite <- !append_assoc. apply last_char_snoc.
Qed.

Lemma package_line_last_char (name : string) :
  last_char (package_line name) = Some ";"%char.
Proof.
  unfold package_line. rewrite <- !append_assoc. apply last_char_snoc.
Qed.

Lemma import_line_last_char (path : string) :
  last_char (import_line path) = Some ";"%char.
Proof.
  unfold import_line. rewrite <- !append_assoc. apply last_char_snoc.
Qed.

Lemma reserved_line_last_char (bucket : list string) :
  Forall (fun line => last_char line = Some ";"%char) (reserved_line bucket).
Proof.
  destruct bucket; constructor; [|constructor].
  rewrite <- !append_assoc. apply last_char_snoc.
Qed.

(** ** The file assembler *)

(** C10.  Every file-level option is the line [option (<name>) = <value>]:
    the name between parentheses and no semicolon at the end, the line
    ending in the closing quote of a string, the last digit of a number or
    the last letter of a boolean; the package, import, reserved, field,
    variant and rpc statements all end in a semicolon. *)
Theorem option_line_has_no_semicolon (file : ProtoFile) :
  writeProtoFile file
  = PROTO_HEADER ++ package_text (package file)
      ++ imports_text (imports file)
      ++ concat_all
           (List.map
              (fun entry =>
                 JS.nl ++ "option (" ++ fst entry ++ ") = "
                       ++ option_value_text (snd entry))
              (options file))
      ++ match options file with [] => "" | _ :: _ => JS.nl end
      ++ declarations_text (declarations file)
  /\ (forall (name : string) (value : OptionValue),
         last_char ("option (" ++ name ++ ") = " ++ option_value_text value)
         <> Some ";"%char)
  /\ (forall name : string, last_char (package_line name) = Some ";"%char)
  /\ (forall path : string, last_char (import_line path) = Some ";"%char)
  /\ (forall bucket : list string,
         Forall (fun line => last_char line = Some ";"%char)
                (reserved_line bucket))
  /\ (forall decl : ProtoFieldDeclaration,
         last_char (writeField decl) = Some ";"%char)
  /\ (forall variant : string * Z,
         last_char (variant_line variant) = Some ";"%char)
  /\ (forall decl : ProtoMethodDeclaration,
         last_char (writeMethod decl) = Some ";"%char).
Proof.
  split.
  { rewrite writeProtoFile_layout. unfold preamble, options_text, option_line.
    now rewrite !append_assoc. }
  split.
  { intros name value.
    destruct (option_line_last_char (name, value)) as [c [Hc Hkind]].
    unfold option_line in Hc. cbn [fst snd] in Hc. rewrite Hc.
    intros [= ->]. destruct Hkind as [H|[H|H]]; discriminate. }
  repeat split;
    auto using package_line_last_char, import_line_last_char,
      reserved_line_last_char, writeField_last_char, variant_line_last_char,
      writeMethod_last_char.
Qed.

(** C8.  The options of a file are one statement per entry, in the order of
    the entries; the value of a string option stands between double quotes
    and any other value is its own [toString]; with at least one option, a
    newline closes the last statement, so that one empty line stands between
    it and the first declaration; with no option nothing is written. *)
Theorem options_one_statement_each
        (pkg : option string) (imps : list string)
        (opts : list (string * OptionValue)) (last : string * OptionValue)
        (decl : ProtoDeclaration) (decls : list ProtoDeclaration) :
  (forall file : ProtoFile,
      writeProtoFile file
      = PROTO_HEADER ++ package_text (package file)
          ++ imports_text (imports file)
          ++ concat_all
               (List.map (fun entry => JS.nl ++ option_line entry)
                         (options file))
          ++ match options file with [] => "" | _ :: _ => JS.nl end
          ++ declarations_text (declarations file))
  /\ (forall (name s : string) (n : Z) (b : bool),
         option_line (name, OptString s)
         = "option (" ++ name ++ ") = " ++ JS.dq ++ s ++ JS.dq
         /\ option_line (name, OptNumber n)
            = "option (" ++ name ++ ") = " ++ JS.Number_toString n
         /\ option_line (name, OptBoolean b)
            = "option (" ++ name ++ ") = " ++ JS.Boolean_toString b)
  /\ writeProtoFile {| package := pkg; imports := imps;
                       options := opts +++ [last];
                       declarations := decl :: decls |}
     = PROTO_HEADER ++ package_text pkg ++ imports_text imps
         ++ concat_all
              (List.map (fun entry => JS.nl ++ option_line entry) opts)
         ++ JS.nl ++ option_line last ++ JS.nl
         ++ JS.nl ++ declaration_block decl ++ JS.nl
         ++ declarations_text decls
  /\ last_char (option_line last) <> Some "010"%char
  /\ writeProtoFile {| package := pkg; imports := imps; options := [];
                       declarations := decl :: decls |}
     = PROTO_HEADER ++ package_text pkg ++ imports_text imps
         ++ JS.nl ++ declaration_block decl ++ JS.nl
         ++ declarations_text decls.
Proof.
  split.
  { intros file. rewrite writeProtoFile_layout. unfold preamble, options_text.
    now rewrite !append_assoc. }
  split; [intros; repeat split; reflexivity|].
  split.
  { rewrite writeProtoFile_layout. unfold preamble, options_text.
    cbn [package imports options declarations declarations_text List.map
         concat_all fold_right].
    rewrite List.map_app.
    assert (Hcat : forall xs ys,
      concat_all (xs +++ ys) = concat_all xs ++ concat_all ys).
    { induction xs as [|x xs IH]; intros ys; simpl;
        [reflexivity | now rewrite IH, append_assoc]. }
    rewrite Hcat. cbn [List.map concat_all fold_right].
    destruct (opts +++ [last]) eqn:E;
      [now destruct opts|].
    rewrite !append_assoc. reflexivity. }
  split.
  { destruct (option_line_last_char last) as [c [Hc Hkind]]. rewrite Hc.
    intros [= ->]. destruct Hkind as [H|[H|H]]; discriminate. }
  rewrite writeProtoFile_layout. unfold preamble, options_text.
  cbn [package imports options declarations declarations_text List.map
       concat_all fold_right].
  rewrite !append_assoc. reflexivity.
Qed.

(** ** Where a block begins and ends *)

Lemma concat_all_app (xs ys : list string) :
  concat_all (xs +++ ys) = concat_all xs ++ concat_all ys.
Proof.
  induction xs as [|x xs IH]; simpl;
    [reflexivity | now rewrite IH, append_assoc].
Qed.

Lemma first_char_append (a b : string) :
  JS.truthy_string a = true -> first_char (a ++ b) = first_char a.
Proof. destruct a; simpl; [discriminate | reflexivity]. Qed.

Lemma join_first_char (lines : list string) (sep : string) :
  JS.truthy_string (hd "" lines) = true ->
  first_char (JS.join lines sep) = first_char (hd "" lines).
Proof.
  destruct lines as [|x [|y rest]]; simpl; try reflexivity.
  apply first_char_append.
Qed.

Lemma join_last_char (lines : list string) (sep : string) (c : ascii) :
  last_char (List.last lines "") = Some c ->
  last_char (JS.join lines sep) = Some c.
Proof.
  induction lines as [|x lines IH]; [discriminate|].
  destruct lines as [|y rest]; [trivial|].
  intros H. specialize (IH H).
  change (JS.join (x :: y :: rest) sep)
    with (x ++ sep ++ JS.join (y :: rest) sep).
  rewrite !last_char_append; eauto using last_char_truthy,
    truthy_string_append_r.
Qed.

(** A text that ends in one newline after a character that is no newline. *)
Lemma ends_in_one_newline_append (a b : string) :
  (exists before c, b = before ++ String c JS.nl /\ c <> "010"%char) ->
  exists before c, a ++ b = before ++ String c JS.nl /\ c <> "010"%char.
Proof.
  intros [before [c [-> Hc]]]. exists (a ++ before), c.
  now rewrite append_assoc.
Qed.

Lemma ends_in_one_newline_line (line : string) (c : ascii) :
  last_char line = Some c -> c <> "010"%char ->
  exists before c, line ++ JS.nl = before ++ String c JS.nl
                   /\ c <> "010"%char.
Proof.
  intros Hlast Hc. destruct (last_char_split _ _ Hlast) as [before ->].
  exists before, c. now rewrite append_assoc.
Qed.

Lemma preamble_ends_in_one_newline (file : ProtoFile) :
  exists before c,
    preamble file = before ++ String c JS.nl /\ c <> "010"%char.
Proof.
  unfold preamble. destruct file as [pkg imps opts decls].
  cbn [package imports options].
  destruct opts as [|o opts _] using List.rev_ind.
  - destruct imps as [|i imps _] using List.rev_ind.
    + cbn [options_text imports_text List.map concat_all fold_right].
      rewrite !append_nil_r.
      destruct pkg as [[|x name]|]; cbn [package_text];
        rewrite ?append_nil_r;
        try (exists ("/* Generated by Microsoft TypeSpec */" ++ JS.nl
                     ++ JS.nl ++ "syntax = " ++ JS.dq ++ "proto3" ++ JS.dq),
                    ";"%char; split; [reflexivity | discriminate]).
      apply ends_in_one_newline_append, ends_in_one_newline_append.
      apply (ends_in_one_newline_line _ _ (package_line_last_char _)).
      discriminate.
    + cbn [options_text List.map concat_all fold_right].
      rewrite !append_nil_r.
      do 2 apply ends_in_one_newline_append.
      unfold imports_text. rewrite List.map_app, concat_all_app.
      cbn [List.map concat_all fold_right]. rewrite append_nil_r.
      destruct (imps +++ [i]) eqn:E; [now destruct imps|].
      rewrite !append_assoc. do 2 apply ends_in_one_newline_append.
      apply (ends_in_one_newline_line _ _ (import_line_last_char _)).
      discriminate.
  - do 3 apply ends_in_one_newline_append.
    unfold options_text. rewrite List.map_app, concat_all_app.
    cbn [List.map concat_all fold_right]. rewrite append_nil_r.
    destruct (opts +++ [o]) eqn:E; [now destruct opts|].
    rewrite !append_assoc. do 2 apply ends_in_one_newline_append.
    destruct (option_line_last_char o) as [c [Hc Hkind]].
    apply (ends_in_one_newline_line _ _ Hc).
    intros ->. destruct Hkind as [H|[H|H]]; discriminate.
Qed.

Lemma first_char_truthy (s : string) (c : ascii) :
  first_char s = Some c -> JS.truthy_string s = true.
Proof. destruct s; simpl; [discriminate | reflexivity]. Qed.

Lemma last_of_block (head : string) (middle : list string) (tail : string) :
  List.last (head :: middle +++ [tail]) "" = tail.
Proof.
  change (head :: middle +++ [tail]) with ((head :: middle) +++ [tail]).
  apply List.last_last.
Qed.

(** The first line of a declaration starts with a letter of its keyword,
    or is the line of a field; its last line ends in a semicolon or in a
    closing brace. *)
Lemma writeDeclaration_first_last (decl : ProtoDeclaration) :
  exists cfirst clast,
    first_char (hd "" (writeDeclaration decl)) = Some cfirst
    /\ last_char (List.last (writeDeclaration decl) "") = Some clast
    /\ (clast = ";"%char \/ clast = "}"%char)
    /\ (cfirst = "010"%char ->
        exists f, decl = DeclField f /\ field_repeated f = false
                  /\ first_char (writeType (field_type f))
                     = Some "010"%char).
Proof.
  destruct decl as [[name ds res]|s|f|[name ds]|e|m].
  - exists "m"%char, "}"%char. cbn [writeDeclaration writeMessage].
    destruct (_ || _).
    + cbn [app]. rewrite List.app_assoc, last_of_block.
      repeat split; auto; discriminate.
    + cbn [hd List.last]. rewrite last_char_snoc.
      repeat split; auto; discriminate.
  - exists "s"%char, "}"%char. cbn [writeDeclaration]. unfold writeService.
    destruct (_ <? _)%nat.
    + cbn [app]. rewrite last_of_block. repeat split; auto; discriminate.
    + cbn [hd List.last]. rewrite last_char_snoc.
      repeat split; auto; discriminate.
  - cbn [writeDeclaration hd List.last]. rewrite writeField_last_char.
    unfold writeField. destruct (field_repeated f) eqn:Hrep.
    + exists "r"%char, ";"%char. repeat split; auto; discriminate.
    + cbn [append]. destruct (writeType (field_type f)) as [|c t] eqn:Ht.
      * exists " "%char, ";"%char. repeat split; auto; discriminate.
      * exists c, ";"%char. repeat split; auto.
        intros ->. exists f. rewrite Ht. auto.
  - exists "o"%char, "}"%char. cbn [writeDeclaration writeOneOf app].
    rewrite last_of_block. repeat split; auto; discriminate.
  - exists "e"%char, "}"%char. cbn [writeDeclaration]. unfold writeEnum.
    cbn [app]. rewrite List.app_assoc, last_of_block.
    repeat split; auto; discriminate.
  - exists "r"%char, ";"%char. cbn [writeDeclaration hd List.last].
    rewrite writeMethod_last_char. repeat split; auto; discriminate.
Qed.

Lemma split_lines_app (a b : string) :
  split_lines (a ++ JS.nl ++ b) = split_lines a +++ split_lines b.
Proof.
  induction a as [|c a IH]; [reflexivity|].
  cbn [append split_lines]. rewrite IH.
  destruct (Ascii.eqb c "010"); [reflexivity|].
  destruct (split_lines a) as [|line lines] eqn:E; [|reflexivity].
  destruct a as [|x a]; [discriminate|]. cbn [split_lines] in E.
  destruct (Ascii.eqb x "010"); [discriminate|].
  destruct (split_lines a); discriminate.
Qed.

Lemma split_lines_blocks {T : Type} (block : T -> string) (items : list T) :
  split_lines
    (concat_all (List.map (fun d => JS.nl ++ block d ++ JS.nl) items))
  = List.flat_map (fun d => "" :: split_lines (block d)) items +++ [""].
Proof.
  induction items as [|d items IH]; [reflexivity|].
  cbn [List.map concat_all fold_right List.flat_map].
  change (fold_right append "" ?l) with (concat_all l).
  rewrite !append_assoc.
  change (JS.nl ++ ?rest) with ("" ++ JS.nl ++ rest) at 1.
  rewrite split_lines_app, split_lines_app, IH.
  cbn [split_lines app]. now rewrite <- List.app_assoc.
Qed.

(** C5.  After the preamble, every top-level declaration adds a newline, its
    lines joined by newlines, and a newline.  The preamble ends in one
    newline, after a character that is none; so the lines of the file are
    the lines of the preamble, then for each declaration one empty line and
    the lines of its block, then the empty piece after the last newline.  A
    block ends in a semicolon or a closing brace and starts with a character
    that is no newline (unless it is the line of a field whose type text
    starts with one): each block, the first one too, is preceded by exactly
    one empty line. *)
Theorem declarations_separated_by_one_blank_line (file : ProtoFile) :
  writeProtoFile file
  = preamble file
      ++ concat_all
           (List.map
              (fun decl =>
                 JS.nl ++ JS.join (collect (writeDeclaration decl)) JS.nl
                       ++ JS.nl)
              (declarations file))
  /\ (exists before c,
         preamble file = before ++ String c JS.nl /\ c <> "010"%char
         /\ split_lines (writeProtoFile file)
            = split_lines (before ++ String c "")
              +++ List.flat_map
                    (fun decl =>
                       "" :: split_lines
                               (JS.join (collect (writeDeclaration decl))
                                        JS.nl))
                    (declarations file)
              +++ [""])
  /\ (forall decl : ProtoDeclaration,
         exists cfirst clast,
           first_char (JS.join (collect (writeDeclaration decl)) JS.nl)
           = Some cfirst
           /\ last_char (JS.join (collect (writeDeclaration decl)) JS.nl)
              = Some clast
           /\ (clast = ";"%char \/ clast = "}"%char)
           /\ (cfirst = "010"%char ->
               exists f, decl = DeclField f /\ field_repeated f = false
                         /\ first_char (writeType (field_type f))
                            = Some "010"%char)).
Proof.
  split; [apply writeProtoFile_layout|].
  split.
  { destruct (preamble_ends_in_one_newline file) as [before [c [Hpre Hc]]].
    exists before, c. split; [exact Hpre|]. split; [exact Hc|].
    rewrite writeProtoFile_layout, Hpre.
    replace (before ++ String c JS.nl)
      with ((before ++ String c "") ++ JS.nl)
      by now rewrite append_assoc.
    rewrite append_assoc, split_lines_app. f_equal.
    apply (split_lines_blocks declaration_block). }
  intros decl. unfold collect.
  destruct (writeDeclaration_first_last decl)
    as [cfirst [clast [Hfirst [Hlast [Hend Hstart]]]]].
  exists cfirst, clast. repeat split; auto.
  - rewrite join_first_char; eauto using first_char_truthy.
  - now apply join_last_char.
Qed.

(** ** Nesting *)

Lemma flatMap_app {T1 T2 : Type} (a b : list T1) (f : T1 -> T2 + list T2) :
  flatMap (a +++ b) f = flatMap a f +++ flatMap b f.
Proof.
  unfold flatMap. induction a as [|x a IH]; simpl; [reflexivity|].
  destruct (f x); rewrite IH; [reflexivity | now rewrite List.app_assoc].
Qed.

Lemma flatMap_one_iterable {T1 T2 : Type} (x : T1) (g : T1 -> list T2) :
  flatMap [x] (fun d => inr (g d)) = g x.
Proof. unfold flatMap. simpl. apply List.app_nil_r. Qed.

Lemma indent_truthy_line (line : string) :
  JS.truthy_string line = true -> indent [line] None = ["  " ++ line].
Proof.
  intros H. unfold indent. cbn [List.map]. now rewrite strict_neq_empty, H.
Qed.

(** C6, as the emitter does it.  In a top-level message, the line of a map
    field of a oneof of the message is the text of the field after exactly
    four spaces: two for the body of the message and two for the body of
    the oneof; the message itself is at the margin. *)
Theorem oneof_field_indented_four_spaces
        (mname oname fname k : string) (v : ProtoType) (idx : Z)
        (rep : bool) (res : option (list ProtoReservation))
        (before after obefore oafter : list ProtoDeclaration) :
  let f := {| field_name := fname; field_type := ProtoMap k v;
              field_index := idx; field_repeated := rep |} in
  let o := OneOf oname (obefore +++ [DeclField f] +++ oafter) in
  let m := Message mname (before +++ [DeclOneOf o] +++ after) res in
  let nested ds := flatMap ds (fun d => inr (writeDeclaration d)) in
  writeDeclaration (DeclMessage m)
  = ["message " ++ mname ++ " {"]
    +++ indent (writeReservations m) None
    +++ indent (nested before) None
    +++ ["  oneof " ++ oname ++ " {"]
    +++ indent (indent (nested obefore) None) None
    +++ ["    " ++ writeField f]
    +++ indent (indent (nested oafter) None) None
    +++ ["  }"]
    +++ indent (nested after) None
    +++ ["}"]
  /\ leading_spaces ("    " ++ writeField f) = 4%nat.
Proof.
  cbv zeta. split.
  - cbn [writeDeclaration writeMessage].
    replace (0 <? List.length (before +++ _ +++ after))%nat with true
      by (symmetry; apply Nat.ltb_lt; rewrite List.length_app; simpl; lia).
    cbn [orb].
    rewrite !flatMap_app, flatMap_one_iterable.
    cbn [writeDeclaration writeOneOf].
    rewrite !flatMap_app, flatMap_one_iterable. cbn [writeDeclaration].
    rewrite !indent_app.
    rewrite (indent_truthy_line ("oneof " ++ oname ++ " {")) by reflexivity.
    rewrite (indent_truthy_line (writeField _)) by apply writeField_truthy.
    rewrite (indent_truthy_line "}") by reflexivity.
    rewrite (indent_truthy_line ("  " ++ writeField _)) by reflexivity.
    repeat first [rewrite <- List.app_assoc | progress cbn [app]].
    reflexivity.
  - unfold writeField. cbn [field_repeated field_type writeType].
    destruct rep; reflexivity.
Qed.

End Properties.

(** ** The emitter on concrete trees *)

(** C1 at the masks [two_bit_masks]: the input bit is bit 1, the output bit
    is bit 0; the line of a method between two references carries each
    keyword exactly when its bit is set, and every combination of the two
    keywords is rendered. *)
Lemma writeMethod_streaming_bits_witness :
  (@StreamingMode_In two_bit_masks = 2 ^ 1
   /\ @StreamingMode_Out two_bit_masks = 2 ^ 0
   /\ 0 <= 1 < 32 /\ 0 <= 0 < 32 /\ 1 <> 0)
  /\ (forall (M X Y : string) (stream : Z),
         @writeMethod two_bit_masks
           {| method_name := M; method_input := ProtoRef X;
              method_returns := ProtoRef Y; method_stream := stream |}
         = "rpc " ++ M ++ "("
             ++ (if Z.testbit stream 1 then "stream " else "") ++ X
             ++ ") returns ("
             ++ (if Z.testbit stream 0 then "stream " else "") ++ Y
             ++ ");")
  /\ forall (M : string) (X Y : ProtoType) (instream outstream : bool),
       exists stream : Z,
         Z.testbit stream 1 = instream
         /\ Z.testbit stream 0 = outstream
         /\ @writeMethod two_bit_masks
              {| method_name := M; method_input := X;
                 method_returns := Y; method_stream := stream |}
            = rpc_line M instream (writeType X) outstream (writeType Y).
Proof.
  split.
  - repeat split; try reflexivity; lia.
  - destruct (@writeMethod_streaming_bits two_bit_masks 1 0)
      as [_ [_ [Hline [_ [Hreach _]]]]];
      try reflexivity; try lia.
    split; [exact Hline | exact Hreach].
Defined.

(** The four lines of a method named [M] from [X] to [Y]. *)
Example writeMethod_four_lines :
  List.map
    (fun stream =>
       @writeMethod two_bit_masks
         {| method_name := "M"; method_input := ProtoRef "X";
            method_returns := ProtoRef "Y"; method_stream := stream |})
    [0; 2; 1; 3]
  = ["rpc M(X) returns (Y);";
     "rpc M(stream X) returns (Y);";
     "rpc M(X) returns (stream Y);";
     "rpc M(stream X) returns (stream Y);"].
Proof. reflexivity. Qed.

(** C6 as it is stated fails on [example_oneof_message]: the line of the
    map field stands after four spaces, and no line of the message is that
    field after six. *)
Lemma oneof_field_not_indented_six_spaces :
  @writeDeclaration two_bit_masks example_oneof_message
  = ["message M {";
     "  oneof O {";
     "    map<string, int32> f = 1;";
     "  }";
     "}"]
  /\ leading_spaces
       (nth 2 (@writeDeclaration two_bit_masks example_oneof_message) "")
     <> 6%nat
  /\ ~ In (spaces 6 ++ writeField example_map_field)
          (@writeDeclaration two_bit_masks example_oneof_message).
Proof.
  split; [reflexivity|]. split; [vm_compute; discriminate|].
  vm_compute. intros H.
  repeat (destruct H as [H|H]; [discriminate|]). exact H.
Qed.

(** The reservations [5, [10, 12], old_name] of a message. *)
Example writeReservations_numbers_then_names :
  writeReservations
    (Message "Foo" []
       (Some [ReservedNumber 5; ReservedRange 10 12; ReservedName "old_name"]))
  = ["reserved 5, 10 to 12;";
     "reserved " ++ JS.dq ++ "old_name" ++ JS.dq ++ ";";
     ""].
Proof. reflexivity. Qed.

(** Names keep their order around a number: [b, 1, a]. *)
Example writeReservations_keeps_bucket_order :
  writeReservations
    (Message "Foo" []
       (Some [ReservedName "b"; ReservedNumber 1; ReservedName "a"]))
  = ["reserved 1;";
     "reserved " ++ JS.dq ++ "b" ++ JS.dq ++ ", " ++ JS.dq ++ "a" ++ JS.dq
                 ++ ";";
     ""].
Proof. reflexivity. Qed.

(** An enum with aliases and no variant has no empty line. *)
Example writeEnum_alias_without_variant :
  writeEnum {| enum_name := "E"; enum_allowAlias := true;
               enum_variants := [] |}
  = ["enum E {"; "  option allow_alias = true;"; "}"].
Proof. reflexivity. Qed.

Example writeEnum_alias_with_variants :
  writeEnum {| enum_name := "E"; enum_allowAlias := true;
               enum_variants := [("A", 0); ("B", 0)] |}
  = ["enum E {"; "  option allow_alias = true;"; ""; "  A = 0;"; "  B = 0;";
     "}"].
Proof. reflexivity. Qed.

(** The lines of a whole file: one empty line before each block, and no
    semicolon after the option. *)
Example writeProtoFile_lines :
  split_lines
    (@writeProtoFile two_bit_masks
       {| package := Some "p";
          imports := ["a"];
          options := [("n", OptNumber 0)];
          declarations :=
            [example_oneof_message; DeclMessage (Message "N" [] None)] |})
  = ["/* Generated by Microsoft TypeSpec */";
     "";
     "syntax = " ++ JS.dq ++ "proto3" ++ JS.dq ++ ";";
     "";
     "package p;";
     "";
     "import " ++ JS.dq ++ "a" ++ JS.dq ++ ";";
     "";
     "option (n) = 0";
     "";
     "message M {";
     "  oneof O {";
     "    map<string, int32> f = 1;";
     "  }";
     "}";
     "";
     "message N {}";
     ""].
Proof. reflexivity. Qed.

(** ** The shape of every rendered declaration *)

Section Shape.

Context {SM : StreamingMode}.

(** Induction on a declaration, with the property for every member of a
    message or of a oneof. *)
Lemma ProtoDeclaration_members_ind (P : ProtoDeclaration -> Prop) :
  (forall name declarations reservations,
      Forall P declarations ->
      P (DeclMessage (Message name declarations reservations))) ->
  (forall decl, P (DeclService decl)) ->
  (forall decl, P (DeclField decl)) ->
  (forall name declarations,
      Forall P declarations -> P (DeclOneOf (OneOf name declarations))) ->
  (forall decl, P (DeclEnum decl)) ->
  (forall decl, P (DeclMethod decl)) ->
  forall decl, P decl.
Proof.
  intros Hmessage Hservice Hfield Honeof Henum Hmethod.
  fix IH 1.
  intros [[name ds res]|s|f|[name ds]|e|m];
    [ | apply Hservice | apply Hfield | | apply Henum | apply Hmethod ].
  - apply Hmessage.
    induction ds as [|d ds IHds]; constructor; [apply IH | exact IHds].
  - apply Honeof.
    induction ds as [|d ds IHds]; constructor; [apply IH | exact IHds].
Qed.

(** *** Braces *)

Lemma strip_spaces_last_char (line : string) :
  last_char (strip_spaces line) = last_char line \/ strip_spaces line = "".
Proof.
  induction line as [|c line IH]; [now left|].
  cbn [strip_spaces].
  destruct (Ascii.eqb_spec c " ") as [->|Hc].
  - destruct IH as [IH|IH]; [|now right]. rewrite IH.
    destruct line; [now right | now left].
  - left. destruct c as [[] [] [] [] [] [] [] []]; try reflexivity.
    now contradiction Hc.
Qed.

Lemma closes_block_last_char (line : string) :
  closes_block line = true -> last_char line = Some "}"%char.
Proof.
  unfold closes_block. intros H. apply String.eqb_eq in H.
  destruct (strip_spaces_last_char line) as [E|E];
    rewrite H in E; [now rewrite <- E | discriminate].
Qed.

Lemma statement_is_no_brace (line : string) :
  last_char line = Some ";"%char ->
  opens_block line = false /\ closes_block line = false.
Proof.
  intros H. split.
  - unfold opens_block. now rewrite H.
  - destruct (closes_block line) eqn:E; [|reflexivity].
    apply closes_block_last_char in E. congruence.
Qed.

Lemma brace_depth_app (a b : list string) (depth : nat) :
  brace_depth (a +++ b) depth
  = match brace_depth a depth with
    | Some depth' => brace_depth b depth'
    | None => None
    end.
Proof.
  revert depth. induction a as [|line a IH]; intros depth; [reflexivity|].
  cbn [app brace_depth].
  destruct (opens_block line); [apply IH|].
  destruct (closes_block line); [|apply IH].
  destruct depth; [reflexivity | apply IH].
Qed.

Lemma brace_depth_statements (lines : list string) (depth : nat) :
  Forall (fun line => line = "" \/ last_char line = Some ";"%char) lines ->
  brace_depth lines depth = Some depth.
Proof.
  induction 1 as [|line lines Hline _ IH]; [reflexivity|].
  cbn [brace_depth]. destruct Hline as [->|Hline]; [exact IH|].
  destruct (statement_is_no_brace _ Hline) as [-> ->]. exact IH.
Qed.

Lemma indent_line_braces (line : string) :
  opens_block ("  " ++ line) = opens_block line
  /\ closes_block ("  " ++ line) = closes_block line.
Proof.
  split; [|reflexivity]. unfold opens_block.
  destruct line as [|c line]; [reflexivity|].
  now rewrite last_char_append.
Qed.

Lemma brace_depth_indent (lines : list string) (depth : nat) :
  brace_depth (indent lines None) depth = brace_depth lines depth.
Proof.
  revert depth. induction lines as [|line lines IH]; intros depth;
    [reflexivity|].
  unfold indent in *. cbn [List.map brace_depth].
  rewrite strict_neq_empty.
  destruct line as [|c line]; cbn [JS.truthy_string].
  - apply IH.
  - change (JS.repeat " " 2 ++ String c line) with ("  " ++ String c line).
    destruct (indent_line_braces (String c line)) as [-> ->].
    destruct (opens_block (String c line)); [apply IH|].
    destruct (closes_block (String c line)); [|apply IH].
    destruct depth; [reflexivity | apply IH].
Qed.

Lemma writeReservations_statements (decl : ProtoMessageDeclaration) :
  Forall (fun line => line = "" \/ last_char line = Some ";"%char)
         (writeReservations decl).
Proof.
  unfold writeReservations. cbv zeta.
  destruct (0 <? _ + _)%nat; [|constructor].
  apply Forall_app. split; [|apply Forall_app; split].
  - destruct (0 <? _)%nat; constructor; [|constructor].
    right. rewrite <- !append_assoc. apply last_char_snoc.
  - destruct (0 <? _)%nat; constructor; [|constructor].
    right. rewrite <- !append_assoc. apply last_char_snoc.
  - constructor; [now left | constructor].
Qed.

Lemma flatMap_items {T1 T2 : Type} (it : list T1) (g : T1 -> T2) :
  flatMap it (fun v => inl (g v)) = List.map g it.
Proof.
  unfold flatMap. induction it as [|v it IH]; simpl;
    [reflexivity | now rewrite IH].
Qed.

Lemma flatMap_variants (variants : list (string * Z)) :
  flatMap variants
    (fun '(name, idx) =>
       inl (name ++ " = " ++ JS.Number_toString idx ++ ";"))
  = List.map variant_line variants.
Proof.
  unfold flatMap. induction variants as [|[name idx] variants IH];
    [reflexivity|].
  cbn [flatMap_of List.map]. now rewrite IH.
Qed.

Lemma flatMap_iterables {T1 T2 : Type} (it : list T1) (g : T1 -> list T2) :
  flatMap it (fun v => inr (g v)) = List.flat_map g it.
Proof.
  unfold flatMap. induction it as [|v it IH]; simpl;
    [reflexivity | now rewrite IH].
Qed.

Lemma brace_depth_members (members : list ProtoDeclaration) (depth : nat) :
  Forall (fun decl => forall depth,
            brace_depth (writeDeclaration decl) depth = Some depth)
         members ->
  brace_depth (flatMap members (fun d => inr (writeDeclaration d))) depth
  = Some depth.
Proof.
  rewrite flatMap_iterables.
  induction 1 as [|d members Hd _ IH]; [reflexivity|].
  cbn [List.flat_map]. now rewrite brace_depth_app, Hd.
Qed.

Lemma head_opens_block (keyword name : string) :
  opens_block (keyword ++ name ++ " {") = true.
Proof.
  unfold opens_block.
  replace (keyword ++ name ++ " {") with ((keyword ++ name ++ " ") ++ "{")
    by now rewrite !append_assoc.
  now rewrite last_char_snoc.
Qed.

Lemma one_line_block_is_no_brace (keyword name : string) :
  JS.truthy_string keyword = true -> starts_flush keyword = true ->
  first_char keyword <> Some "}"%char ->
  opens_block ((keyword ++ name ++ " {") ++ "}") = false
  /\ closes_block ((keyword ++ name ++ " {") ++ "}") = false.
Proof.
  intros Hk Hflush Hfirst. split.
  - unfold opens_block. now rewrite last_char_snoc.
  - unfold closes_block. destruct keyword as [|c keyword]; [discriminate|].
    cbn [append]. cbn [starts_flush] in Hflush.
    destruct (Ascii.eqb_spec c " ") as [->|Hc]; [discriminate|].
    assert (Hstrip : forall rest,
      strip_spaces (String c rest) = String c rest).
    { intros rest. destruct c as [[] [] [] [] [] [] [] []]; try reflexivity.
      now contradiction Hc. }
    rewrite Hstrip. apply String.eqb_neq. intros [= -> _].
    now apply Hfirst.
Qed.

(** Braces are properly nested in the lines of every declaration: no line
    closes a block that no earlier line opened, and after the last line no
    block is left open. *)
Theorem writeDeclaration_braces_nested
        (decl : ProtoDeclaration) (depth : nat) :
  brace_depth (writeDeclaration decl) depth = Some depth.
Proof.
  revert depth. induction decl as
    [name ds res IH|s|f|name ds IH|e|m] using ProtoDeclaration_members_ind;
    intros depth.
  - cbn [writeDeclaration writeMessage]. destruct (_ || _).
    + cbn [app brace_depth]. rewrite head_opens_block.
      rewrite brace_depth_app, brace_depth_indent.
      rewrite (brace_depth_statements _ _ (writeReservations_statements _)).
      rewrite brace_depth_app, brace_depth_indent.
      rewrite (brace_depth_members _ _ IH). reflexivity.
    + cbn [brace_depth].
      now destruct (one_line_block_is_no_brace "message " name
                      eq_refl eq_refl ltac:(discriminate)) as [-> ->].
  - cbn [writeDeclaration]. unfold writeService. destruct (_ <? _)%nat.
    + cbn [app brace_depth]. rewrite head_opens_block.
      rewrite brace_depth_app, brace_depth_indent, flatMap_items.
      rewrite brace_depth_statements; [reflexivity|].
      apply Forall_forall. intros line Hin. apply in_map_iff in Hin.
      destruct Hin as [m [<- _]]. right. apply writeMethod_last_char.
    + cbn [brace_depth].
      now destruct (one_line_block_is_no_brace "service " (service_name s)
                      eq_refl eq_refl ltac:(discriminate)) as [-> ->].
  - cbn [writeDeclaration].
    apply brace_depth_statements. constructor; [|constructor].
    right. apply writeField_last_char.
  - cbn [writeDeclaration writeOneOf app brace_depth].
    rewrite head_opens_block, brace_depth_app, brace_depth_indent.
    rewrite (brace_depth_members _ _ IH). reflexivity.
  - cbn [writeDeclaration]. unfold writeEnum. cbn [app brace_depth].
    rewrite head_opens_block, brace_depth_app.
    rewrite (brace_depth_statements
               (if enum_allowAlias e then _ else _)).
    + rewrite brace_depth_app, brace_depth_indent, flatMap_variants.
      rewrite brace_depth_statements; [reflexivity|].
      apply Forall_forall. intros line Hin. apply in_map_iff in Hin.
      destruct Hin as [variant [<- _]]. right.
      apply variant_line_last_char.
    + destruct (enum_allowAlias e); [|constructor].
      constructor; [now right|].
      destruct (0 <? _)%nat; repeat constructor.
  - cbn [writeDeclaration].
    apply brace_depth_statements. constructor; [|constructor].
    right. apply writeMethod_last_char.
Qed.

(** *** Lines and newlines *)

Lemma no_newline_append (a b : string) :
  no_newline (a ++ b) = no_newline a && no_newline b.
Proof.
  induction a as [|c a IH]; [reflexivity|].
  cbn [append no_newline]. now rewrite IH, andb_assoc.
Qed.

Lemma no_newline_string_of_uint (d : Decimal.uint) :
  no_newline (NilEmpty.string_of_uint d) = true.
Proof. induction d; simpl; auto. Qed.

Lemma no_newline_Number_toString (n : Z) :
  no_newline (JS.Number_toString n) = true.
Proof.
  unfold JS.Number_toString, NilZero.string_of_int, NilZero.string_of_uint.
  destruct (Z.to_int n) as [d|d]; destruct d;
    try reflexivity; cbn [no_newline];
    try apply no_newline_string_of_uint;
    apply (no_newline_string_of_uint (_ d)).
Qed.

Lemma no_newline_writeType (type : ProtoType) :
  type_no_newline type = true -> no_newline (writeType type) = true.
Proof.
  induction type as [s|r|k v IH]; cbn [type_no_newline writeType]; auto.
  intros H. apply andb_true_iff in H. destruct H as [Hk Hv].
  rewrite !no_newline_append, Hk, (IH Hv). reflexivity.
Qed.

Lemma no_newline_join (lines : list string) (sep : string) :
  no_newline sep = true ->
  Forall (fun line => no_newline line = true) lines ->
  no_newline (JS.join lines sep) = true.
Proof.
  intros Hsep. induction 1 as [|x lines Hx Hlines IH]; [reflexivity|].
  destruct lines as [|y lines]; [exact Hx|].
  change (JS.join (x :: y :: lines) sep)
    with (x ++ sep ++ JS.join (y :: lines) sep).
  now rewrite !no_newline_append, Hx, Hsep, IH.
Qed.

Lemma no_newline_indent (lines : list string) (depth : option nat) :
  Forall (fun line => no_newline line = true) lines ->
  Forall (fun line => no_newline line = true) (indent lines depth).
Proof.
  intros H. unfold indent. apply Forall_map.
  eapply Forall_impl; [|exact H]. cbv beta. intros line Hline.
  destruct (JS.strict_neq line ""); [|exact Hline].
  rewrite no_newline_append, Hline, andb_true_r.
  generalize (match depth with Some d => d | None => 2%nat end).
  intros n. induction n as [|n IH]; [reflexivity | exact IH].
Qed.

Lemma split_lines_one (line : string) :
  no_newline line = true -> split_lines line = [line].
Proof.
  induction line as [|c line IH]; [reflexivity|].
  cbn [no_newline split_lines]. intros H.
  apply andb_true_iff in H. destruct H as [Hc Hline].
  apply negb_true_iff in Hc. now rewrite Hc, (IH Hline).
Qed.

(** Splitting on newlines undoes joining with newlines, for lines that hold
    none. *)
Lemma split_lines_join (lines : list string) :
  lines <> [] ->
  Forall (fun line => no_newline line = true) lines ->
  split_lines (JS.join lines JS.nl) = lines.
Proof.
  intros Hne H. induction H as [|x lines Hx Hlines IH]; [congruence|].
  destruct lines as [|y lines]; [now apply split_lines_one|].
  change (JS.join (x :: y :: lines) JS.nl)
    with (x ++ JS.nl ++ JS.join (y :: lines) JS.nl).
  rewrite split_lines_app, (split_lines_one _ Hx), IH by discriminate.
  reflexivity.
Qed.

Lemma no_newline_writeMethod (decl : ProtoMethodDeclaration) :
  method_no_newline decl = true -> no_newline (writeMethod decl) = true.
Proof.
  unfold method_no_newline, writeMethod. intros H.
  apply andb_true_iff in H. destruct H as [H Hret].
  apply andb_true_iff in H. destruct H as [Hname Hin].
  cbv zeta. cbn [List.map nth].
  rewrite !no_newline_append, Hname, (no_newline_writeType _ Hin),
    (no_newline_writeType _ Hret).
  do 2 destruct (JS.truthy_number _); reflexivity.
Qed.

Lemma no_newline_writeReservations
      (name : string) (ds : list ProtoDeclaration)
      (res : option (list ProtoReservation)) :
  match res with
  | Some entries => forallb reservation_no_newline entries
  | None => true
  end = true ->
  Forall (fun line => no_newline line = true)
         (writeReservations (Message name ds res)).
Proof.
  intros Hres. unfold writeReservations. cbn [message_reservations].
  cbv zeta.
  rewrite !(selectMap_filter _ _ _ _ _ ReservationSelector_eqb_eq).
  set (entries := match res with Some r => r | None => [] end).
  assert (Hentries : Forall (fun v => reservation_no_newline v = true) entries).
  { subst entries. destruct res as [r|]; [|constructor].
    now apply Forall_forall, forallb_forall. }
  assert (Hbucket : forall (g : ProtoReservation -> string)
                           (keep : ProtoReservation -> bool),
    (forall v, reservation_no_newline v = true -> no_newline (g v) = true) ->
    Forall (fun line => no_newline line = true)
           (List.map g (List.filter keep entries))).
  { intros g keep Hg. apply Forall_map, Forall_forall. intros v Hv.
    apply filter_In in Hv. destruct Hv as [Hv _].
    apply Hg. revert v Hv. now apply Forall_forall. }
  destruct (0 <? _ + _)%nat; [|constructor].
  apply Forall_app. split; [|apply Forall_app; split].
  - destruct (0 <? _)%nat; constructor; [|constructor].
    rewrite !no_newline_append, no_newline_join; [reflexivity..|].
    apply Hbucket. intros [n|lo hi|s] Hv; cbn [reservation_no_newline] in Hv;
      rewrite ?no_newline_append, ?no_newline_Number_toString; auto.
  - destruct (0 <? _)%nat; constructor; [|constructor].
    rewrite !no_newline_append, no_newline_join; [reflexivity..|].
    apply Hbucket. intros [n|lo hi|s] Hv; cbn [reservation_no_newline] in Hv;
      rewrite ?no_newline_append, ?no_newline_Number_toString, ?Hv;
      reflexivity.
  - repeat constructor.
Qed.

Lemma no_newline_members (members : list ProtoDeclaration) :
  Forall (fun decl =>
            declaration_no_newline decl = true ->
            Forall (fun line => no_newline line = true)
                   (writeDeclaration decl))
         members ->
  forallb declaration_no_newline members = true ->
  Forall (fun line => no_newline line = true)
         (flatMap members (fun d => inr (writeDeclaration d))).
Proof.
  rewrite flatMap_iterables.
  induction 1 as [|d members Hd _ IH]; [constructor|].
  cbn [forallb List.flat_map]. intros H.
  apply andb_true_iff in H. destruct H as [Hok Hrest].
  apply Forall_app. split; [apply Hd, Hok | apply IH, Hrest].
Qed.

Lemma no_newline_writeDeclaration (decl : ProtoDeclaration) :
  declaration_no_newline decl = true ->
  Forall (fun line => no_newline line = true) (writeDeclaration decl).
Proof.
  induction decl as
    [name ds res IH|s|f|name ds IH|e|m] using ProtoDeclaration_members_ind;
    cbn [declaration_no_newline]; intros H.
  - apply andb_true_iff in H. destruct H as [H Hres].
    apply andb_true_iff in H. destruct H as [Hname Hds].
    cbn [writeDeclaration writeMessage]. destruct (_ || _).
    + constructor; [now rewrite !no_newline_append, Hname|].
      apply Forall_app. split;
        [apply no_newline_indent, no_newline_writeReservations, Hres|].
      apply Forall_app. split; [|repeat constructor].
      apply no_newline_indent, no_newline_members; assumption.
    + constructor; [|constructor].
      now rewrite !no_newline_append, Hname.
  - apply andb_true_iff in H. destruct H as [Hname Hops].
    cbn [writeDeclaration]. unfold writeService. destruct (_ <? _)%nat.
    + constructor; [now rewrite !no_newline_append, Hname|].
      apply Forall_app. split; [|repeat constructor].
      apply no_newline_indent. rewrite flatMap_items.
      apply Forall_map, Forall_forall. intros m Hm.
      apply no_newline_writeMethod.
      revert m Hm. now apply forallb_forall.
    + constructor; [|constructor].
      now rewrite !no_newline_append, Hname.
  - apply andb_true_iff in H. destruct H as [Hname Htype].
    cbn [writeDeclaration]. constructor; [|constructor].
    unfold writeField.
    rewrite !no_newline_append, Hname, (no_newline_writeType _ Htype),
      no_newline_Number_toString.
    destruct (field_repeated f); reflexivity.
  - apply andb_true_iff in H. destruct H as [Hname Hds].
    cbn [writeDeclaration writeOneOf].
    constructor; [now rewrite !no_newline_append, Hname|].
    apply Forall_app. split; [|repeat constructor].
    apply no_newline_indent, no_newline_members; assumption.
  - apply andb_true_iff in H. destruct H as [Hname Hvariants].
    cbn [writeDeclaration]. unfold writeEnum.
    constructor; [now rewrite !no_newline_append, Hname|].
    apply Forall_app. split.
    { destruct (enum_allowAlias e); [|constructor].
      constructor; [reflexivity|].
      destruct (0 <? _)%nat; repeat constructor. }
    apply Forall_app. split; [|repeat constructor].
    apply no_newline_indent. rewrite flatMap_variants.
    apply Forall_map, Forall_forall. intros variant Hv.
    unfold variant_line.
    rewrite !no_newline_append, no_newline_Number_toString.
    rewrite (proj1 (forallb_forall _ _) Hvariants variant Hv). reflexivity.
  - cbn [writeDeclaration]. constructor; [|constructor].
    now apply no_newline_writeMethod.
Qed.

Lemma writeDeclaration_nonempty (decl : ProtoDeclaration) :
  writeDeclaration decl <> [].
Proof.
  destruct (writeDeclaration_first_last decl) as [c [_ [H _]]].
  destruct (writeDeclaration decl); [discriminate H | discriminate].
Qed.

(** When no name and no type name of a declaration holds a newline, no line
    of the declaration holds one, and the lines of its block, split on
    newlines, are the lines the dispatcher yields: joining loses nothing. *)
Theorem writeDeclaration_lines_round_trip (decl : ProtoDeclaration) :
  declaration_no_newline decl = true ->
  Forall (fun line => no_newline line = true) (writeDeclaration decl)
  /\ split_lines (JS.join (collect (writeDeclaration decl)) JS.nl)
     = writeDeclaration decl.
Proof.
  intros H. pose proof (no_newline_writeDeclaration decl H) as Hlines.
  split; [exact Hlines|].
  apply split_lines_join; [apply writeDeclaration_nonempty | exact Hlines].
Qed.

(** *** Margins *)










(** *** Services and enums *)

Lemma writeMethod_truthy (decl : ProtoMethodDeclaration) :
  JS.truthy_string (writeMethod decl) = true.
Proof. exact (last_char_truthy _ _ (writeMethod_last_char decl)). Qed.

Lemma indent_truthy_lines (lines : list string) :
  Forall (fun line => JS.truthy_string line = true) lines ->
  indent lines None = List.map (fun line => "  " ++ line) lines.
Proof.
  intros H. unfold indent. apply List.map_ext_in. intros line Hin.
  rewrite strict_neq_empty.
  now rewrite (proj1 (Forall_forall _ _) H line Hin).
Qed.

(** A service with no operation is the one line [service <Name> {}]; any
    other service is its opening line, the line of each method after two
    spaces, in the order of the operations, and a closing brace. *)
Theorem writeService_lines (decl : ProtoServiceDeclaration) :
  writeService decl
  = match service_operations decl with
    | [] => ["service " ++ service_name decl ++ " {}"]
    | _ :: _ =>
        ["service " ++ service_name decl ++ " {"]
        +++ List.map (fun method => "  " ++ writeMethod method)
                     (service_operations decl)
        +++ ["}"]
    end.
Proof.
  unfold writeService.
  destruct (service_operations decl) as [|m ops] eqn:E.
  - cbn. now rewrite append_assoc.
  - cbn [List.length Nat.ltb Nat.leb]. rewrite flatMap_items.
    rewrite indent_truthy_lines, List.map_map; [reflexivity|].
    apply Forall_map, Forall_forall. intros method _.
    apply writeMethod_truthy.
Qed.

(** An enum without the allow-alias flag is its opening line, the line of
    each variant after two spaces, in declared order, and a closing brace:
    no option line, and two lines when it has no variant, never the
    one-line form of a message or of a service. *)
Theorem writeEnum_without_alias (name : string) (variants : list (string * Z)) :
  writeEnum {| enum_name := name; enum_allowAlias := false;
               enum_variants := variants |}
  = ["enum " ++ name ++ " {"]
    +++ List.map (fun variant => "  " ++ variant_line variant) variants
    +++ ["}"].
Proof.
  unfold writeEnum. cbn [enum_name enum_allowAlias enum_variants app].
  rewrite flatMap_variants, indent_truthy_lines, List.map_map; [reflexivity|].
  apply Forall_map, Forall_forall. intros variant _.
  exact (last_char_truthy _ _ (variant_line_last_char variant)).
Qed.

(** *** Streaming modes *)

Lemma ToInt32_periodic (x k : Z) :
  JS.ToInt32 (x + k * 2 ^ 32) = JS.ToInt32 x.
Proof. unfold JS.ToInt32. now rewrite Z_mod_plus_full. Qed.

(** Only the low 32 bits of the streaming mode of a method are read, and
    the mode 0 gives the line without any [stream] keyword, whatever the two
    masks are. *)
Theorem writeMethod_reads_32_bits
        (name : string) (input returns : ProtoType) (stream k : Z) :
  writeMethod {| method_name := name; method_input := input;
                 method_returns := returns;
                 method_stream := stream + k * 2 ^ 32 |}
  = writeMethod {| method_name := name; method_input := input;
                   method_returns := returns; method_stream := stream |}
  /\ writeMethod {| method_name := name; method_input := input;
                    method_returns := returns; method_stream := 0 |}
     = rpc_line name false (writeType input) false (writeType returns).
Proof.
  split.
  - unfold writeMethod, JS.bitand. cbn [method_stream].
    now rewrite ToInt32_periodic.
  - reflexivity.
Qed.

(** *** The line-stream utilities *)

Lemma repeat_add (s : string) (a b : nat) :
  JS.repeat s (a + b) = JS.repeat s a ++ JS.repeat s b.
Proof.
  induction a as [|a IH]; [reflexivity|].
  cbn [Nat.add JS.repeat]. now rewrite IH, append_assoc.
Qed.

(** Indentations add up: indenting by [a] and then by [b] is indenting once
    by [a + b], and indenting by no space changes nothing. *)
Theorem indent_depths_add (it : list string) (a b : nat) :
  indent (indent it (Some a)) (Some b) = indent it (Some (b + a)%nat)
  /\ indent it (Some 0%nat) = it.
Proof.
  split.
  - unfold indent. rewrite List.map_map. apply List.map_ext.
    intros line. rewrite !strict_neq_empty.
    destruct line as [|c line]; [reflexivity|]. cbn [JS.truthy_string].
    rewrite truthy_string_append_r by reflexivity.
    now rewrite repeat_add, append_assoc.
  - unfold indent. rewrite <- (List.map_id it) at 2. apply List.map_ext.
    intros line. now destruct (JS.strict_neq line "").
Qed.

(** [flatMap] keeps the order of the items and of what each item expands
    to: an item mapped to one value counts as the list of that value, and
    the result for two lists in a row is the two results in a row. *)
Theorem flatMap_flattens_in_order
        {T1 T2 : Type} (a b : list T1) (f : T1 -> T2 + list T2) :
  flatMap a f
  = List.concat
      (List.map (fun v => match f v with
                          | inl item => [item]
                          | inr items => items
                          end) a)
  /\ flatMap (a +++ b) f = flatMap a f +++ flatMap b f.
Proof.
  split.
  - unfold flatMap. induction a as [|v a IH]; [reflexivity|].
    cbn [flatMap_of List.map List.concat]. rewrite <- IH.
    now destruct (f v).
  - unfold flatMap. induction a as [|v a IH]; [reflexivity|].
    cbn [app flatMap_of]. rewrite IH.
    destruct (f v); [reflexivity | now rewrite List.app_assoc].
Qed.

(** [selectMap] with the two selectors of the reservations drops no item
    and repeats none: each of the two arrays holds, in source order and
    once each, the images by its delegate of exactly the items selected for
    it, whatever the selection and the delegates; so the two arrays together
    are as long as the source. *)
Theorem selectMap_keeps_every_item
        {TIn TOut : Type} (source : list TIn)
        (select : TIn -> ReservationSelector)
        (delegates : ReservationSelector -> TIn -> TOut) :
  selectMap ReservationSelector_eqb source select delegates reservedNumbers
  = List.map (delegates reservedNumbers)
      (List.filter
         (fun v => match select v with
                   | reservedNumbers => true
                   | reservedNames => false
                   end) source)
  /\ selectMap ReservationSelector_eqb source select delegates reservedNames
     = List.map (delegates reservedNames)
         (List.filter
            (fun v => match select v with
                      | reservedNumbers => false
                      | reservedNames => true
                      end) source)
  /\ (List.length
        (selectMap ReservationSelector_eqb source select delegates
                   reservedNumbers)
      + List.length
          (selectMap ReservationSelector_eqb source select delegates
                     reservedNames))%nat
     = List.length source.
Proof.
  rewrite !(selectMap_filter _ _ _ _ _ ReservationSelector_eqb_eq).
  split; [|split].
  - reflexivity.
  - reflexivity.
  - rewrite !List.length_map.
    induction source as [|v source IH]; [reflexivity|].
    cbn [List.filter]. destruct (select v); cbn [ReservationSelector_eqb
      List.length]; lia.
Qed.

(** *** The whole file *)

Lemma declarations_text_last_char (decls : list ProtoDeclaration) :
  decls <> [] ->
  last_char (declarations_text decls) = Some "010"%char.
Proof.
  unfold declarations_text.
  induction decls as [|d decls IH]; [congruence|]. intros _.
  cbn [List.map concat_all fold_right].
  change (fold_right append "" ?l) with (concat_all l).
  destruct decls as [|d' decls].
  - cbn [List.map concat_all fold_right]. rewrite append_nil_r.
    rewrite <- !append_assoc. apply last_char_snoc.
  - rewrite last_char_append; [apply IH; discriminate|].
    eapply last_char_truthy. apply IH. discriminate.
Qed.

(** Every rendered file starts with the header and ends in a newline; the
    file with no package, import, option or declaration is the header. *)
Theorem writeProtoFile_header_and_final_newline (file : ProtoFile) :
  (exists rest, writeProtoFile file = PROTO_HEADER ++ rest)
  /\ last_char (writeProtoFile file) = Some "010"%char
  /\ writeProtoFile {| package := None; imports := []; options := [];
                       declarations := [] |}
     = PROTO_HEADER.
Proof.
  split; [|split].
  - rewrite writeProtoFile_layout. unfold preamble.
    eexists. rewrite !append_assoc. reflexivity.
  - rewrite writeProtoFile_layout.
    destruct (declarations file) as [|d decls] eqn:E.
    + cbn [declarations_text List.map concat_all fold_right].
      rewrite append_nil_r.
      destruct (preamble_ends_in_one_newline file) as [before [c [-> _]]].
      now rewrite last_char_append.
    + rewrite last_char_append;
        [apply declarations_text_last_char; discriminate|].
      eapply last_char_truthy. apply declarations_text_last_char.
      discriminate.
  - reflexivity.
Qed.

(** A package that is the empty string is no package: the file is the one
    rendered with the package absent.  Any other package name is one
    statement between two newlines, right after the header. *)
Theorem writeProtoFile_empty_package
        (imps : list string) (opts : list (string * OptionValue))
        (decls : list ProtoDeclaration) (c : ascii) (name : string) :
  writeProtoFile {| package := Some ""; imports := imps; options := opts;
                    declarations := decls |}
  = writeProtoFile {| package := None; imports := imps; options := opts;
                      declarations := decls |}
  /\ exists rest,
       writeProtoFile {| package := None; imports := imps; options := opts;
                         declarations := decls |}
       = PROTO_HEADER ++ rest
       /\ writeProtoFile {| package := Some (String c name); imports := imps;
                            options := opts; declarations := decls |}
          = PROTO_HEADER ++ JS.nl ++ "package " ++ String c name ++ ";"
              ++ JS.nl ++ rest.
Proof.
  split.
  - now rewrite !writeProtoFile_layout.
  - exists (imports_text imps ++ options_text opts ++ declarations_text decls).
    rewrite !writeProtoFile_layout. unfold preamble.
    cbn [package imports options declarations package_text].
    unfold package_line. split; now rewrite ?append_assoc.
Qed.

(** The lines of a file whose declarations hold no newline in their names:
    the lines of the preamble, then for each declaration one empty line and
    exactly the lines that [writeDeclaration] yields for it, then the empty
    piece after the final newline. *)
Theorem writeProtoFile_lines_of_declarations (file : ProtoFile) :
  forallb declaration_no_newline (declarations file) = true ->
  exists before,
    preamble file = before ++ JS.nl
    /\ split_lines (writeProtoFile file)
       = split_lines before
         +++ List.flat_map (fun decl => "" :: writeDeclaration decl)
                           (declarations file)
         +++ [""].
Proof.
  intros Hok.
  destruct (preamble_ends_in_one_newline file) as [before [c [Hpre _]]].
  exists (before ++ String c "").
  split; [now rewrite Hpre, append_assoc|].
  rewrite writeProtoFile_layout, Hpre.
  replace (before ++ String c JS.nl) with ((before ++ String c "") ++ JS.nl)
    by now rewrite append_assoc.
  rewrite append_assoc, split_lines_app. f_equal.
  unfold declarations_text. rewrite split_lines_blocks. f_equal.
  induction (declarations file) as [|d decls IH]; [reflexivity|].
  cbn [forallb] in Hok. apply andb_true_iff in Hok.
  destruct Hok as [Hd Hdecls].
  cbn [List.flat_map]. rewrite (IH Hdecls). do 2 f_equal.
  apply split_lines_join;
    [apply writeDeclaration_nonempty | now apply no_newline_writeDeclaration].
Qed.

End Shape.

(** ** The shape of concrete declarations *)

Lemma writeDeclaration_lines_round_trip_witness :
  declaration_no_newline example_nested_message = true
  /\ Forall (fun line => no_newline line = true)
            (@writeDeclaration two_bit_masks example_nested_message)
  /\ split_lines
       (JS.join (collect (@writeDeclaration two_bit_masks
                            example_nested_message)) JS.nl)
     = @writeDeclaration two_bit_masks example_nested_message.
Proof.
  split; [reflexivity|].
  apply (@writeDeclaration_lines_round_trip two_bit_masks). reflexivity.
Defined.


Lemma writeProtoFile_lines_of_declarations_witness :
  forallb declaration_no_newline [example_nested_message; example_service]
  = true
  /\ exists before,
       @preamble
         {| package := Some "demo"; imports := []; options := [];
            declarations := [example_nested_message; example_service] |}
       = before ++ JS.nl
       /\ split_lines
            (@writeProtoFile two_bit_masks
               {| package := Some "demo"; imports := []; options := [];
                  declarations :=
                    [example_nested_message; example_service] |})
          = split_lines before
            +++ List.flat_map
                  (fun decl => "" :: @writeDeclaration two_bit_masks decl)
                  [example_nested_message; example_service]
            +++ [""].
Proof.
  split; [reflexivity|].
  apply (@writeProtoFile_lines_of_declarations two_bit_masks
           {| package := Some "demo"; imports := []; options := [];
              declarations := [example_nested_message; example_service] |}).
  reflexivity.
Defined.

(** The lines of the nested message. *)
Example writeDeclaration_nested_message :
  @writeDeclaration two_bit_masks example_nested_message
  = ["message Outer {";
     "  reserved 5, 10 to 12;";
     "  reserved " ++ JS.dq ++ "old" ++ JS.dq ++ ";";
     "";
     "  repeated int32 ids = 1;";
     "  enum Kind {";
     "    option allow_alias = true;";
     "";
     "    A = 0;";
     "    B = 0;";
     "  }";
     "  message Inner {";
     "    Outer peer = 1;";
     "  }";
     "  message Empty {}";
     "  oneof choice {";
     "    map<string, int32> f = 1;";
     "  }";
     "}"].
Proof. reflexivity. Qed.

Example writeDeclaration_service :
  @writeDeclaration two_bit_masks example_service
  = ["service Greeter {";
     "  rpc Hello(Req) returns (Res);";
     "  rpc Watch(Req) returns (stream Res);";
     "}"].
Proof. reflexivity. Qed.

(** A field whose type name is empty starts with the space before its name:
    it does not stand at its margin. *)
Example writeDeclaration_margin_needs_flush_statements :
  margin_after
    (@writeDeclaration two_bit_masks
       (DeclField {| field_name := "x"; field_type := ProtoScalar "";
                     field_index := 1; field_repeated := false |})) 0
  = None.
Proof. reflexivity. Qed.
